(** * TikTok downloader: the resolver and relay route handlers

    A shallow embedding of [src/app/api/download/tiktok/route.ts] (the
    [POST], [GET] and [OPTIONS] handlers) and of the URL check and file
    name clean-up of [src/app/page.tsx], with the properties the
    specification states about them.

    JavaScript strings are sequences of UTF-16 code units, and the code
    depends on it in two places: the regular expression's [.] refuses the
    four line terminators (two of which lie outside the 8-bit range), and
    [encodeURIComponent] works on surrogate pairs.  Strings are therefore
    lists of code units. *)

From Stdlib Require Import Ascii String DecimalString.
From Stdlib Require Import List Bool Arith NArith ZArith Lia.
From Stdlib Require DecimalPos DecimalN.
Import ListNotations.
Open Scope list_scope.

(* ================================================================== *)
(** * Strings *)

Definition code_unit := N.
Definition jsstring := list code_unit.

(** The code units of a piece of UTF-8 text (one to three bytes a
    character: the Basic Multilingual Plane, which holds every literal of
    the two files). *)
Fixpoint utf16_of_utf8 (bs : list N) : jsstring :=
  match bs with
  | [] => []
  | b0 :: r0 =>
      if (b0 <? 128)%N then b0 :: utf16_of_utf8 r0
      else
        match r0 with
        | [] => [b0]
        | b1 :: r1 =>
            if (b0 <? 224)%N then
              ((b0 - 192) * 64 + (b1 - 128))%N :: utf16_of_utf8 r1
            else
              match r1 with
              | [] => [b0; b1]
              | b2 :: r2 =>
                  ((b0 - 224) * 4096 + (b1 - 128) * 64 + (b2 - 128))%N
                  :: utf16_of_utf8 r2
              end
        end
  end.

(** A string literal of the source text, as code units. *)
Definition lit (s : string) : jsstring :=
  utf16_of_utf8 (map N_of_ascii (list_ascii_of_string s)).
Arguments lit s%_string.

(** The double quote, which a literal cannot hold. *)
Definition dquote : code_unit := 34%N.

Fixpoint jsstring_eqb (a b : jsstring) : bool :=
  match a, b with
  | [], [] => true
  | x :: a', y :: b' => N.eqb x y && jsstring_eqb a' b'
  | _, _ => false
  end.

(** [Number.prototype.toString] on a non-negative integer. *)
Definition N_toString (n : N) : jsstring :=
  lit (NilZero.string_of_uint (N.to_uint n)).

(** [Number.prototype.toString] on an integer. *)
Definition Z_toString (z : Z) : jsstring :=
  match z with
  | Zneg p => lit "-" ++ N_toString (Npos p)
  | _ => N_toString (Z.to_N z)
  end.

(* ================================================================== *)
(** * Regular expressions

    The fragment of ECMAScript patterns the two files use, without flags:
    [^], pattern characters, [.], sequence, [|], [?] and [+].  Groups only
    delimit (nothing reads a capture), so they leave no trace in the
    syntax tree. *)

Module RegExp.

Inductive regex : Type :=
| Eps                       (* the empty pattern *)
| Bol                       (* ^ *)
| Chr (c : code_unit)       (* a pattern character, escaped or not *)
| Dot                       (* . *)
| Seq (a b : regex)         (* ab *)
| Alt (a b : regex)         (* a|b *)
| Opt (a : regex)           (* a? *)
| Plus (a : regex).         (* a+ *)

(** The characters [.] refuses: LF, CR, LS and PS. *)
Definition isLineTerminator (c : code_unit) : bool :=
  (N.eqb c 10 || N.eqb c 13 || N.eqb c 8232 || N.eqb c 8233)%N.

(** A pattern character given as in the source text. *)
Definition ch (a : ascii) : regex := Chr (N_of_ascii a).
Arguments ch a%_char.

(** A run of pattern characters. *)
Fixpoint word (w : jsstring) : regex :=
  match w with
  | [] => Eps
  | c :: w' => Seq (Chr c) (word w')
  end.

(** A matcher state is the index reached and the input left there; a
    continuation says whether the rest of the pattern matches from a
    state.  [star] is the RepeatMatcher of [a+] once its first iteration
    is done: it gives up an iteration that consumed nothing, and tries
    the continuation when no further iteration succeeds.  Every further
    iteration consumes input, so the fuel [m] gives it, one more than the
    length of the input left, is never used up ([m_denote] below). *)
Definition cont := nat -> jsstring -> bool.

Fixpoint star (step : cont -> cont) (k : cont) (fuel : nat)
  (i : nat) (s : jsstring) : bool :=
  match fuel with
  | O => false
  | S fuel' =>
      step (fun i1 s1 =>
              if Nat.eqb i1 i then false else star step k fuel' i1 s1) i s
      || k i s
  end.

Fixpoint m (r : regex) (k : cont) (i : nat) (s : jsstring) {struct r} : bool :=
  match r with
  | Eps => k i s
  | Bol => Nat.eqb i 0 && k i s
  | Chr c =>
      match s with
      | x :: s' => N.eqb x c && k (S i) s'
      | [] => false
      end
  | Dot =>
      match s with
      | x :: s' => negb (isLineTerminator x) && k (S i) s'
      | [] => false
      end
  | Seq a b => m a (m b k) i s
  | Alt a b => m a k i s || m b k i s
  | Opt a =>
      m a (fun i1 s1 => if Nat.eqb i1 i then false else k i1 s1) i s
      || k i s
  | Plus a =>
      m a (star (m a) k (S (length s))) i s
  end.

(** [RegExp.prototype.test] without the g and y flags: the match is tried
    at index 0, then at each later index in turn. *)
Fixpoint exec_from (r : regex) (i : nat) (s : jsstring) : bool :=
  m r (fun _ _ => true) i s
  || match s with
     | [] => false
     | _ :: s' => exec_from r (S i) s'
     end.

Definition test (r : regex) (s : jsstring) : bool := exec_from r 0 s.

End RegExp.

Import RegExp.

(** [/^(https?:\/\/)?(www\.)?(tiktok\.com|vm\.tiktok\.com)\/.+/], the
    pattern of both [route.ts] and [page.tsx]. *)
Definition tiktokRegex : regex :=
  Seq Bol
  (Seq (Opt (Seq (word (lit "http")) (Seq (Opt (ch "s")) (word (lit "://")))))
  (Seq (Opt (word (lit "www.")))
  (Seq (Alt (word (lit "tiktok.com")) (word (lit "vm.tiktok.com")))
  (Seq (ch "/")
       (Plus Dot))))).

(* ================================================================== *)
(** * Values

    What [JSON.parse] builds, and [undefined] beside it.  The TypeScript
    interfaces of [route.ts] are erased at run time, so a field read from
    a parsed body can hold any of these.  Numbers are the integers that
    JavaScript holds exactly (below 2^53 in absolute value; the
    envelope's [code] and a response's status are such), which it prints
    in decimal. *)

Definition is_safe_integer (z : Z) : bool :=
  (Z.abs z <? 9007199254740992)%Z.

Record number : Type := Number {
  num_value : Z;
  num_safe : is_safe_integer num_value = true
}.

(** A number literal of the source text (0 stands for one that is not a
    safe integer; there is none). *)
Definition num (z : Z) : number :=
  match is_safe_integer z as b return is_safe_integer z = b -> number with
  | true => fun H => Number z H
  | false => fun _ => Number 0 eq_refl
  end eq_refl.

Coercion num : Z >-> number.

#[local] Set Warnings "-register-all".

Inductive json : Type :=
| JNull
| JBool (b : bool)
| JNum (n : number)
| JStr (s : jsstring)
| JArr (items : list json)
| JObj (fields : list (jsstring * json)).

Arguments JNum n%_Z.

(** A value is a piece of JSON or [undefined] ([None]). *)
Definition value := option json.
Definition undefined : value := None.

Definition str (s : jsstring) : value := Some (JStr s).

(** ToBoolean. *)
Definition truthy (v : value) : bool :=
  match v with
  | None => false
  | Some JNull => false
  | Some (JBool b) => b
  | Some (JNum n) => negb (Z.eqb (num_value n) 0)
  | Some (JStr []) => false
  | Some (JStr (_ :: _)) => true
  | Some (JArr _) => true
  | Some (JObj _) => true
  end.

(** [a || b] *)
Definition js_or (a b : value) : value := if truthy a then a else b.

(** [v !== n] for a number literal [n]. *)
Definition strict_neq_num (v : value) (n : Z) : bool :=
  match v with
  | Some (JNum c) => negb (Z.eqb (num_value c) n)
  | _ => true
  end.

(** The own property [k] of an object given by its list of properties. *)
Fixpoint lookup (k : jsstring) (fields : list (jsstring * json)) : value :=
  match fields with
  | [] => undefined
  | (k', v) :: rest => if jsstring_eqb k k' then Some v else lookup k rest
  end.

(** ToString: what a template literal, [RegExp.prototype.test],
    [encodeURIComponent] and [new Error] make of their argument; [None]
    is the TypeError of a value that has no primitive form.  An object
    built by [JSON.parse] is converted by [Object.prototype.toString]
    unless it has an own [toString] property: that property is never a
    function, [valueOf] then gives the object back, and the conversion
    throws.  An array joins the string forms of its elements with commas,
    [null] counting as the empty string, and throws when one of them
    does. *)
Fixpoint json_ToString (j : json) : option jsstring :=
  match j with
  | JNull => Some (lit "null")
  | JBool true => Some (lit "true")
  | JBool false => Some (lit "false")
  | JNum n => Some (Z_toString (num_value n))
  | JStr s => Some s
  | JArr items =>
      (fix join (l : list json) : option jsstring :=
         match l with
         | [] => Some []
         | x :: l' =>
             match match x with JNull => Some [] | _ => json_ToString x end,
                   match l' with
                   | [] => Some []
                   | _ :: _ => option_map (app (lit ",")) (join l')
                   end
             with
             | Some first, Some others => Some (first ++ others)
             | _, _ => None
             end
         end) items
  | JObj fields =>
      match lookup (lit "toString") fields with
      | Some _ => None
      | None => Some (lit "[object Object]")
      end
  end.

Definition ToString (v : value) : option jsstring :=
  match v with
  | None => Some (lit "undefined")
  | Some j => json_ToString j
  end.

(** An object literal as [JSON.stringify] (hence [NextResponse.json])
    writes it: a property whose value is [undefined] is left out. *)
Fixpoint obj_fields (props : list (jsstring * value)) : list (jsstring * json) :=
  match props with
  | [] => []
  | (k, Some j) :: rest => (k, j) :: obj_fields rest
  | (_, None) :: rest => obj_fields rest
  end.

Definition obj (props : list (jsstring * value)) : json :=
  JObj (obj_fields props).

(* ================================================================== *)
(** * Effects

    A handler writes to the console, calls [fetch], and may throw; the
    [try]/[catch] around each body turns a throw into a response.  A
    computation is the list of the events it produced, in order, with
    either the value thrown or the result. *)

(** A thrown value: an [Error] with its message, or anything else. *)
Inductive thrown : Type :=
| ErrorInstance (message : jsstring)
| NotAnError.

Inductive console_arg : Type :=
| AText (s : jsstring)
| AValue (v : value)
| AThrown (e : thrown).

Definition header := (jsstring * jsstring)%type.

Inductive event : Type :=
| ConsoleLog (args : list console_arg)
| ConsoleError (args : list console_arg)
| Fetch (url : jsstring) (headers : list header).

Definition M (A : Type) : Type := (list event * (thrown + A))%type.

Definition ret {A} (a : A) : M A := ([], inr a).

Definition throw {A} (e : thrown) : M A := ([], inl e).

Definition bind {A B} (c : M A) (f : A -> M B) : M B :=
  match snd c with
  | inl e => (fst c, inl e)
  | inr a => (fst c ++ fst (f a), snd (f a))
  end.

Definition try_catch {A} (c : M A) (handler : thrown -> M A) : M A :=
  match snd c with
  | inl e => (fst c ++ fst (handler e), snd (handler e))
  | inr a => c
  end.

Definition emit (e : event) : M unit := ([e], inr tt).

Notation "x <- c ;; k" := (bind c (fun x => k))
  (at level 61, c at next level, right associativity).
Notation "c ;;; k" := (bind c (fun _ => k))
  (at level 61, right associativity).

(** [await] on a promise that has settled. *)
Definition await {A} (p : thrown + A) : M A := ([], p).

Definition console_log (args : list console_arg) : M unit :=
  emit (ConsoleLog args).
Definition console_error (args : list console_arg) : M unit :=
  emit (ConsoleError args).

(** The events of a run, its outcome, and the calls to [fetch] among the
    events. *)
Definition events {A} (c : M A) : list event := fst c.
Definition outcome {A} (c : M A) : thrown + A := snd c.

Definition is_fetch (e : event) : bool :=
  match e with Fetch _ _ => true | _ => false end.

Definition fetches {A} (c : M A) : list event := filter is_fetch (events c).

(* ================================================================== *)
(** * The platform: requests, [fetch], responses *)

(** What [fetch] resolves to, as far as the handlers read it. *)
Record Response : Type := {
  ok : bool;
  status : number;
  json_body : thrown + json;            (* response.json() *)
  arrayBuffer : thrown + list Byte.byte (* response.arrayBuffer() *)
}.

Inductive fetch_result : Type :=
| Rejects (e : thrown)
| Resolves (r : Response).

(** The world a handler runs in: the network behind [fetch], and the
    wording the engine gives the errors it raises itself. *)
Record Env : Type := {
  network : jsstring -> list header -> fetch_result;
  TypeError_message : value -> jsstring -> jsstring;
  ToPrimitive_message : jsstring;
  URIError_message : jsstring;
  ByteString_message : jsstring -> jsstring;
  header_message : jsstring -> jsstring -> jsstring;
  status_message : Z -> jsstring
}.

Definition fetch (env : Env) (url : jsstring) (headers : list header)
  : M Response :=
  emit (Fetch url headers) ;;;
  match network env url headers with
  | Rejects e => throw e
  | Resolves r => ret r
  end.

(** [j.k] on a value that is neither [undefined] nor [null], for the
    property names the handlers read ([url], [code], [data], [title],
    [cover], [author], [nickname], [play], [wmplay]): the own property of
    an object, and [undefined] on a boolean, number, string or array,
    none of which has or inherits a property of one of these names. *)
Definition own (j : json) (k : jsstring) : value :=
  match j with
  | JObj fields => lookup k fields
  | _ => undefined
  end.

(** [v.k], and [const { k } = v]: a TypeError on [undefined] and
    [null]. *)
Definition get (env : Env) (v : value) (k : jsstring) : M value :=
  match v with
  | None | Some JNull => throw (ErrorInstance (TypeError_message env v k))
  | Some j => ret (own j k)
  end.

(** The request, as far as the handlers read it: the parsed body and the
    query parameters in order. *)
Record NextRequest : Type := {
  request_json : thrown + json;         (* request.json() *)
  searchParams : list (jsstring * jsstring)
}.

(** [URLSearchParams.prototype.get]: the first value of the name, or
    [null]. *)
Fixpoint searchParams_get (params : list (jsstring * jsstring))
  (name : jsstring) : value :=
  match params with
  | [] => Some JNull
  | (k, v) :: rest =>
      if jsstring_eqb k name then str v else searchParams_get rest name
  end.

Inductive body : Type :=
| BodyJson (j : json)
| BodyBytes (b : list Byte.byte)
| BodyNull.

(** A response as the handler asks for it: body, status and the headers
    it names. *)
Record NextResponse : Type := {
  res_body : body;
  res_status : Z;
  res_headers : list header
}.

(** [NextResponse.json(j, { status })]; the status is 200 when left out. *)
Definition NextResponse_json (j : json) (st : Z) : NextResponse :=
  {| res_body := BodyJson j; res_status := st; res_headers := [] |}.

(** The [Headers] class, which [new NextResponse] fills from the headers
    it is given.  Names and values must be byte strings (no code unit
    above 255).  A value loses its leading and trailing HTTP whitespace,
    and must then hold no NUL, CR or LF; a name must be a token. *)
Definition is_byte_string (s : jsstring) : bool :=
  forallb (fun c => (c <=? 255)%N) s.

Definition is_http_whitespace (c : code_unit) : bool :=
  (N.eqb c 9 || N.eqb c 10 || N.eqb c 13 || N.eqb c 32)%N.

Fixpoint strip_leading (s : jsstring) : jsstring :=
  match s with
  | [] => []
  | c :: s' => if is_http_whitespace c then strip_leading s' else s
  end.

Definition normalize_header_value (v : jsstring) : jsstring :=
  rev (strip_leading (rev (strip_leading v))).

Definition valid_header_value (v : jsstring) : bool :=
  forallb (fun c => negb (N.eqb c 0 || N.eqb c 10 || N.eqb c 13)%N) v.

Definition is_token_char (c : code_unit) : bool :=
  ((48 <=? c) && (c <=? 57) || (65 <=? c) && (c <=? 90)
   || (97 <=? c) && (c <=? 122))%N
  || existsb (N.eqb c) (lit "!#$%&'*+-.^_`|~").

Definition valid_header_name (name : jsstring) : bool :=
  match name with
  | [] => false
  | _ :: _ => forallb is_token_char name
  end.

(** The first name or value, in order, that is not a byte string. *)
Fixpoint first_wide (hs : list header) : option jsstring :=
  match hs with
  | [] => None
  | (name, v) :: rest =>
      if negb (is_byte_string name) then Some name
      else if negb (is_byte_string v) then Some v
      else first_wide rest
  end.

(** Appending the headers one by one; each throws a TypeError on a name
    or a normalized value that is not valid. *)
Fixpoint fill_headers (env : Env) (hs : list header) : M (list header) :=
  match hs with
  | [] => ret []
  | (name, v) :: rest =>
      if negb (valid_header_name name)
         || negb (valid_header_value (normalize_header_value v))
      then throw (ErrorInstance (header_message env name v))
      else
        bind (fill_headers env rest)
             (fun rest' => ret ((name, normalize_header_value v) :: rest'))
  end.

(** [new NextResponse(b, { status, headers })]; the status is 200 when
    left out.  The constructor throws when a header is not a byte string,
    when the status is outside 200..599, when a header is not valid, and
    when a body comes with a status that allows none. *)
Definition NextResponse_new (env : Env) (b : body) (st : Z)
  (hs : list header) : M NextResponse :=
  match first_wide hs with
  | Some wide => throw (ErrorInstance (ByteString_message env wide))
  | None =>
      if ((st <? 200) || (599 <? st))%Z then
        throw (ErrorInstance (status_message env st))
      else
        bind (fill_headers env hs)
             (fun headers =>
                match b with
                | BodyNull =>
                    ret {| res_body := b; res_status := st;
                           res_headers := headers |}
                | _ =>
                    if (Z.eqb st 204 || Z.eqb st 205 || Z.eqb st 304)%Z then
                      throw (ErrorInstance (status_message env st))
                    else
                      ret {| res_body := b; res_status := st;
                             res_headers := headers |}
                end)
  end.

(* ================================================================== *)
(** * [encodeURIComponent] *)

Definition is_alnum (c : code_unit) : bool :=
  ((48 <=? c) && (c <=? 57) || (65 <=? c) && (c <=? 90)
   || (97 <=? c) && (c <=? 122))%N.

(** The characters left as they are: letters, digits and [-_.!~*'()]. *)
Definition uriUnescaped (c : code_unit) : bool :=
  is_alnum c || existsb (N.eqb c) (lit "-_.!~*'()").

Definition hex_digit (n : N) : code_unit :=
  if (n <? 10)%N then (48 + n)%N else (55 + n)%N.

Definition percent (octet : N) : jsstring :=
  [37%N; hex_digit (octet / 16); hex_digit (octet mod 16)].

Definition utf8_octets (v : N) : list N :=
  (if v <? 128 then [v]
   else if v <? 2048 then [192 + v / 64; 128 + v mod 64]
   else if v <? 65536 then
     [224 + v / 4096; 128 + (v / 64) mod 64; 128 + v mod 64]
   else
     [240 + v / 262144; 128 + (v / 4096) mod 64;
      128 + (v / 64) mod 64; 128 + v mod 64])%N.

Definition is_high_surrogate (c : code_unit) : bool :=
  ((55296 <=? c) && (c <=? 56319))%N.
Definition is_low_surrogate (c : code_unit) : bool :=
  ((56320 <=? c) && (c <=? 57343))%N.

(** The Encode operation; [None] is its URIError, on a surrogate with no
    partner. *)
Fixpoint Encode (s : jsstring) : option jsstring :=
  match s with
  | [] => Some []
  | c :: rest =>
      if uriUnescaped c then option_map (cons c) (Encode rest)
      else if is_low_surrogate c then None
      else if negb (is_high_surrogate c) then
        option_map (app (flat_map percent (utf8_octets c))) (Encode rest)
      else
        match rest with
        | [] => None
        | k :: rest' =>
            if is_low_surrogate k then
              option_map
                (app (flat_map percent
                        (utf8_octets
                           ((c - 55296) * 1024 + (k - 56320) + 65536)%N)))
                (Encode rest')
            else None
        end
  end.

(** ToString where the code applies it: it throws a TypeError on a value
    without a primitive form. *)
Definition ToString_M (env : Env) (v : value) : M jsstring :=
  match ToString v with
  | Some s => ret s
  | None => throw (ErrorInstance (ToPrimitive_message env))
  end.

Definition encodeURIComponent (env : Env) (v : value) : M jsstring :=
  bind (ToString_M env v)
       (fun s =>
          match Encode s with
          | Some e => ret e
          | None => throw (ErrorInstance (URIError_message env))
          end).

(** [r.test(v)]: the argument is converted to a string first. *)
Definition RegExp_test (env : Env) (r : regex) (v : value) : M bool :=
  bind (ToString_M env v) (fun s => ret (test r s)).

(* ================================================================== *)
(** * [route.ts] *)

Definition userAgent : header :=
  (lit "User-Agent",
   lit "Mozilla/5.0 (Windows NT 10.0; Win64; x64) AppleWebKit/537.36").

(** [error instanceof Error ? error.message : 'Erro desconhecido'] *)
Definition details_of (error : thrown) : value :=
  match error with
  | ErrorInstance message => str message
  | NotAnError => str (lit "Erro desconhecido")
  end.

(** [!response.ok || tikwmData.code !== 0 || !tikwmData.data], left to
    right, each operand read only when the ones before it are false. *)
Definition upstream_failed (env : Env) (response : Response)
  (tikwmData : json) : M bool :=
  if negb (ok response) then ret true
  else
    code <- get env (Some tikwmData) (lit "code") ;;
    if strict_neq_num code 0 then ret true
    else
      data <- get env (Some tikwmData) (lit "data") ;;
      ret (negb (truthy data)).

Definition POST (env : Env) (request : NextRequest) : M NextResponse :=
  try_catch
    (body <- await (request_json request) ;;
     url <- get env (Some body) (lit "url") ;;
     if negb (truthy url) then
       ret (NextResponse_json
              (obj [(lit "error", str (lit "URL é obrigatória"))]) 400)
     else
     matched <- RegExp_test env tiktokRegex url ;;
     if negb matched then
       ret (NextResponse_json
              (obj [(lit "error", str (lit "URL inválida do TikTok"))]) 400)
     else
       text <- ToString_M env url ;;
       console_log [AText (lit "Fetching TikTok video from: " ++ text)] ;;;
       encoded <- encodeURIComponent env url ;;
       let tikwmUrl := lit "https://www.tikwm.com/api/?url=" ++ encoded in
       response <- fetch env tikwmUrl [userAgent] ;;
       tikwmData <- await (json_body response) ;;
       failed <- upstream_failed env response tikwmData ;;
       if failed then
         console_error
           [AText (lit "TikWM API error:"); AValue (Some tikwmData)] ;;;
         ret (NextResponse_json
                (obj [(lit "error",
                       str (lit "Erro ao obter informações do vídeo do TikTok. Verifique se o link está correto."))])
                500)
       else
         data <- get env (Some tikwmData) (lit "data") ;;
         title <- get env data (lit "title") ;;
         cover <- get env data (lit "cover") ;;
         author <- get env data (lit "author") ;;
         nickname <- get env author (lit "nickname") ;;
         description <- get env data (lit "title") ;;
         play <- get env data (lit "play") ;;
         wmplay <- get env data (lit "wmplay") ;;
         ret (NextResponse_json
                (obj [(lit "success", Some (JBool true));
                      (lit "message", str (lit "Vídeo obtido com sucesso"));
                      (lit "data",
                       Some (obj [(lit "title",
                                   js_or title (str (lit "TikTok Video")));
                                  (lit "thumbnail", cover);
                                  (lit "author", nickname);
                                  (lit "description", description);
                                  (lit "downloadUrl", play);
                                  (lit "noWatermarkUrl", wmplay)]))])
                200))
    (fun error =>
       console_error
         [AText (lit "Erro ao processar download do TikTok:");
          AThrown error] ;;;
       ret (NextResponse_json
              (obj [(lit "error", str (lit "Erro ao processar o vídeo"));
                    (lit "details", details_of error)])
              500)).

Definition GET (env : Env) (request : NextRequest) : M NextResponse :=
  try_catch
    (let videoUrl := searchParams_get (searchParams request) (lit "url") in
     let filename :=
       js_or (searchParams_get (searchParams request) (lit "filename"))
             (str (lit "tiktok_video.mp4")) in
     if negb (truthy videoUrl) then
       ret (NextResponse_json
              (obj [(lit "error", str (lit "URL do vídeo é obrigatória"))])
              400)
     else
       text <- ToString_M env videoUrl ;;
       console_log
         [AText (lit "Downloading TikTok video from: " ++ text)] ;;;
       input <- ToString_M env videoUrl ;;
       response <- fetch env input [userAgent] ;;
       if negb (ok response) then
         console_error
           [AText (lit "Failed to fetch video:");
            AValue (Some (JNum (status response)))] ;;;
         ret (NextResponse_json
                (obj [(lit "error",
                       str (lit "Falha ao baixar o vídeo do servidor do TikTok"))])
                500)
       else
         videoBuffer <- await (arrayBuffer response) ;;
         name <- ToString_M env filename ;;
         NextResponse_new env (BodyBytes videoBuffer) 200
           [(lit "Content-Type", lit "video/mp4");
            (lit "Content-Disposition",
             lit "attachment; filename=" ++ [dquote] ++ name ++ [dquote]);
            (lit "Content-Length",
             N_toString (N.of_nat (length videoBuffer)));
            (lit "Cache-Control", lit "public, max-age=3600")])
    (fun error =>
       console_error
         [AText (lit "Erro ao baixar vídeo do TikTok:"); AThrown error] ;;;
       ret (NextResponse_json
              (obj [(lit "error", str (lit "Erro ao baixar o vídeo"));
                    (lit "details", details_of error)])
              500)).

Definition OPTIONS (env : Env) : M NextResponse :=
  NextResponse_new env BodyNull 200
    [(lit "Access-Control-Allow-Origin", lit "*");
     (lit "Access-Control-Allow-Methods", lit "POST, GET, OPTIONS");
     (lit "Access-Control-Allow-Headers", lit "Content-Type")].

(* ================================================================== *)
(** * [page.tsx]: the URL check and the file name sent to the relay *)

(** WhiteSpace and LineTerminator, the code units [trim] removes. *)
Definition isWhiteSpace (c : code_unit) : bool :=
  (N.eqb c 9 || N.eqb c 11 || N.eqb c 12 || N.eqb c 32 || N.eqb c 160
   || N.eqb c 5760 || (8192 <=? c) && (c <=? 8202) || N.eqb c 8239
   || N.eqb c 8287 || N.eqb c 12288 || N.eqb c 65279)%N.

Fixpoint trimStart (s : jsstring) : jsstring :=
  match s with
  | [] => []
  | c :: s' =>
      if isWhiteSpace c || isLineTerminator c then trimStart s' else s
  end.

Definition trim (s : jsstring) : jsstring :=
  rev (trimStart (rev (trimStart s))).

(** [validateUrl]: the verdict, with the value it passes to [setError]
    ([null] when the link is accepted). *)
Definition validateUrl (url : jsstring) : bool * value :=
  if negb (truthy (str (trim url))) then
    (false, str (lit "Por favor, insira um link válido"))
  else if negb (test tiktokRegex url) then
    (false, str (lit "Link inválido do TikTok"))
  else (true, Some JNull).

(** [filename.replace(/[^a-z0-9]/gi, '_')]: every code unit that is not
    an ASCII letter or digit becomes an underscore (the i flag folds
    case within ASCII only, as no non-ASCII code unit is canonicalized to
    an ASCII one). *)
Definition sanitize (filename : jsstring) : jsstring :=
  map (fun c => if is_alnum c then c else 95%N) filename.

(** The [filename] parameter [handleDownload] puts in the relay's URL for
    a title: [`${sanitizedFilename}.mp4`], the title defaulting to
    ['TikTok_Video']. *)
Definition download_filename (title : jsstring) : jsstring :=
  sanitize (if truthy (str title) then title else lit "TikTok_Video")
  ++ lit ".mp4".

(* ================================================================== *)
(** * What a pattern denotes

    [denote r i w]: the pattern [r], started at index [i] of the input,
    can consume exactly the word [w].  The matcher is compared with this
    reading below. *)

Inductive iter (P : nat -> jsstring -> Prop) : nat -> jsstring -> Prop :=
| iter_one i w : P i w -> iter P i w
| iter_more i w1 w2 :
    P i w1 -> iter P (i + length w1) w2 -> iter P i (w1 ++ w2).

Fixpoint denote (r : regex) (i : nat) (w : jsstring) : Prop :=
  match r with
  | Eps => w = []
  | Bol => w = [] /\ i = 0
  | Chr c => w = [c]
  | Dot => exists x, w = [x] /\ isLineTerminator x = false
  | Seq a b =>
      exists w1 w2,
        w = w1 ++ w2 /\ denote a i w1 /\ denote b (i + length w1) w2
  | Alt a b => denote a i w \/ denote b i w
  | Opt a => w = [] \/ denote a i w
  | Plus a => iter (denote a) i w
  end.

(** The validator's contract in the specification's words: an optional
    scheme, an optional [www.], one of the two hosts, a slash and at
    least one more character. *)
Definition matches_description (s : jsstring) : Prop :=
  exists scheme www host c rest,
    s = scheme ++ www ++ host ++ lit "/" ++ c :: rest /\
    In scheme [[]; lit "http://"; lit "https://"] /\
    In www [[]; lit "www."] /\
    In host [lit "tiktok.com"; lit "vm.tiktok.com"].

(** The same, the character after the slash not being a line
    terminator. *)
Definition matches_pattern (s : jsstring) : Prop :=
  exists scheme www host c rest,
    s = scheme ++ www ++ host ++ lit "/" ++ c :: rest /\
    In scheme [[]; lit "http://"; lit "https://"] /\
    In www [[]; lit "www."] /\
    In host [lit "tiktok.com"; lit "vm.tiktok.com"] /\
    isLineTerminator c = false.

(* ================================================================== *)
(** * [page.tsx]: the component's handlers

    The component keeps five pieces of state and changes them through
    their setters; it calls [fetch], starts and clears a timer, shows
    toasts and builds a link to save the file.  A run of a handler is the
    list of these calls, in order, with either the value thrown or the
    result.  The property names read here ([error], [data],
    [downloadUrl], [title]) are, like those of [route.ts], neither own
    nor inherited properties of a boolean, number, string or array. *)

Module Page.

(** The second argument of [fetch]; [init_body] is the value handed to
    [JSON.stringify]. *)
Record RequestInit : Type := {
  init_method : jsstring;
  init_headers : list header;
  init_body : json
}.

(** What [fetch] resolves to in the page, as far as it is read. *)
Record PageResponse : Type := {
  page_ok : bool;
  page_json : thrown + json;            (* response.json() *)
  page_blob : thrown + list Byte.byte   (* response.blob() *)
}.

Inductive page_fetch_result : Type :=
| PageRejects (e : thrown)
| PageResolves (r : PageResponse).

Inductive page_event : Type :=
| SetDownloading (b : bool)
| SetProgress (n : Z)
| SetDownloadComplete (b : bool)
| SetError (v : value)
| SetTiktokUrl (s : jsstring)
| SetInterval (delay : Z)
| ClearInterval
| PageFetch (url : jsstring) (init : option RequestInit)
| Toast (props : list (jsstring * value))
| CreateObjectURL (blob : list Byte.byte)
| CreateElement (tag : jsstring)
| SetHref (href : jsstring)
| SetDownload (name : jsstring)
| AppendChild
| Click
| RemoveChild
| RevokeObjectURL (url : jsstring).

(** The browser: the server behind [fetch], the URL it gives a blob, and
    the wording of the errors the engine raises itself. *)
Record Browser : Type := {
  server : jsstring -> option RequestInit -> page_fetch_result;
  objectURL : list Byte.byte -> jsstring;
  reading_message : value -> jsstring -> jsstring;
  not_a_function_message : jsstring -> jsstring;
  primitive_message : jsstring;
  malformed_message : jsstring
}.

Definition P (A : Type) : Type := (list page_event * (thrown + A))%type.

Definition pret {A} (a : A) : P A := ([], inr a).
Definition pthrow {A} (e : thrown) : P A := ([], inl e).

Definition pbind {A B} (c : P A) (f : A -> P B) : P B :=
  match snd c with
  | inl e => (fst c, inl e)
  | inr a => (fst c ++ fst (f a), snd (f a))
  end.

(** [try { c } catch (err) { handler }] *)
Definition ptry_catch {A} (c : P A) (handler : thrown -> P A) : P A :=
  match snd c with
  | inl e => (fst c ++ fst (handler e), snd (handler e))
  | inr a => c
  end.

(** [try { c } finally { final }]: [final] runs in every case, and what
    it throws replaces the outcome of [c]. *)
Definition ptry_finally {A} (c : P A) (final : P unit) : P A :=
  (fst c ++ fst final,
   match snd final with
   | inl e => inl e
   | inr _ => snd c
   end).

Definition call (e : page_event) : P unit := ([e], inr tt).

Definition pawait {A} (p : thrown + A) : P A := ([], p).

Declare Scope page_scope.
Delimit Scope page_scope with page.
Notation "x <- c ;; k" := (pbind c (fun x => k))
  (at level 61, c at next level, right associativity) : page_scope.
Notation "c ;;; k" := (pbind c (fun _ => k))
  (at level 61, right associativity) : page_scope.
Local Open Scope page_scope.

Definition page_fetch (b : Browser) (url : jsstring)
  (init : option RequestInit) : P PageResponse :=
  call (PageFetch url init) ;;;
  match server b url init with
  | PageRejects e => pthrow e
  | PageResolves r => pret r
  end.

(** [v.k] *)
Definition read (b : Browser) (v : value) (k : jsstring) : P value :=
  match v with
  | None | Some JNull => pthrow (ErrorInstance (reading_message b v k))
  | Some j => pret (own j k)
  end.

(** [v?.k] *)
Definition read_optional (v : value) (k : jsstring) : value :=
  match v with
  | None | Some JNull => undefined
  | Some j => own j k
  end.

(** [filename.replace(/[^a-z0-9]/gi, '_')]: only a string has a
    [replace] to call. *)
Definition replace_unsafe (b : Browser) (filename : value) : P jsstring :=
  match filename with
  | Some (JStr s) => pret (sanitize s)
  | _ => pthrow (ErrorInstance (not_a_function_message b (lit "filename.replace")))
  end.

(** ToString where the page applies it. *)
Definition page_ToString (b : Browser) (v : value) : P jsstring :=
  match ToString v with
  | Some s => pret s
  | None => pthrow (ErrorInstance (primitive_message b))
  end.

Definition page_encodeURIComponent (b : Browser) (v : value) : P jsstring :=
  s <- page_ToString b v ;;
  match Encode s with
  | Some e => pret e
  | None => pthrow (ErrorInstance (malformed_message b))
  end.

(** [new Error(v)]: the message is the string form of [v]. *)
Definition new_Error (b : Browser) (v : value) : P thrown :=
  message <- page_ToString b v ;;
  pret (ErrorInstance message).

(** [resetDownloadState] *)
Definition resetDownloadState : P unit :=
  call (SetDownloadComplete false) ;;;
  call (SetError (Some JNull)) ;;;
  call (SetProgress 0).

(** [handleTiktokUrlChange] *)
Definition handleTiktokUrlChange (v : jsstring) : P unit :=
  call (SetTiktokUrl v) ;;;
  resetDownloadState.

(** The callback [handleDownload] gives [setInterval]: the updater of
    the progress, with whether it clears the timer. *)
Definition progress_tick (prev : Z) : Z * bool :=
  if (90 <=? prev)%Z then (90%Z, true) else ((prev + 10)%Z, false).

(** The progress after [n] runs of the callback. *)
Fixpoint progress_after (n : nat) (start : Z) : Z :=
  match n with
  | O => start
  | S n' => fst (progress_tick (progress_after n' start))
  end.

(** [err instanceof Error ? err.message : 'Erro ao processar o vídeo'] *)
Definition message_of (err : thrown) : value :=
  match err with
  | ErrorInstance message => str message
  | NotAnError => str (lit "Erro ao processar o vídeo")
  end.

Definition post_init (url : jsstring) : RequestInit :=
  {| init_method := lit "POST";
     init_headers := [(lit "Content-Type", lit "application/json")];
     init_body := obj [(lit "url", str url)] |}.

(** [handleDownload] *)
Definition handleDownload (b : Browser) (url : jsstring) : P unit :=
  call (SetError (snd (validateUrl url))) ;;;
  if negb (fst (validateUrl url)) then pret tt
  else
    call (SetDownloading true) ;;;
    call (SetProgress 0) ;;;
    call (SetDownloadComplete false) ;;;
    call (SetError (Some JNull)) ;;;
    call (SetInterval 500) ;;;
    ptry_finally
      (ptry_catch
         (response <- page_fetch b (lit "/api/download/tiktok")
                        (Some (post_init url)) ;;
          data <- pawait (page_json response) ;;
          (if negb (page_ok response) then
             error <- read b (Some data) (lit "error") ;;
             failure <- new_Error b
                          (js_or error
                                 (str (lit "Erro ao processar o vídeo"))) ;;
             pthrow failure
           else pret tt) ;;;
          inner <- read b (Some data) (lit "data") ;;
          (if truthy (read_optional inner (lit "downloadUrl")) then
             title <- read b inner (lit "title") ;;
             let filename := js_or title (str (lit "TikTok_Video")) in
             sanitizedFilename <- replace_unsafe b filename ;;
             downloadUrl <- read b inner (lit "downloadUrl") ;;
             encoded <- page_encodeURIComponent b downloadUrl ;;
             let proxyUrl :=
               lit "/api/download/tiktok?url=" ++ encoded
               ++ lit "&filename=" ++ sanitizedFilename ++ lit ".mp4" in
             videoResponse <- page_fetch b proxyUrl None ;;
             (if negb (page_ok videoResponse) then
                pthrow (ErrorInstance
                          (lit "Erro ao baixar o vídeo do servidor"))
              else pret tt) ;;;
             blob <- pawait (page_blob videoResponse) ;;
             call (CreateObjectURL blob) ;;;
             call (CreateElement (lit "a")) ;;;
             call (SetHref (objectURL b blob)) ;;;
             call (SetDownload (sanitizedFilename ++ lit ".mp4")) ;;;
             call AppendChild ;;;
             call Click ;;;
             call RemoveChild ;;;
             call (RevokeObjectURL (objectURL b blob))
           else pret tt) ;;;
          call ClearInterval ;;;
          call (SetProgress 100) ;;;
          call (SetDownloadComplete true) ;;;
          call (Toast [(lit "title", str (lit "Sucesso!"));
                       (lit "description",
                        str (lit "Vídeo baixado com sucesso!"));
                       (lit "className",
                        str (lit "bg-green-500 text-white"))]))
         (fun err =>
            call ClearInterval ;;;
            call (SetError (message_of err)) ;;;
            call (Toast [(lit "title", str (lit "Erro"));
                         (lit "description", message_of err);
                         (lit "variant", str (lit "destructive"))])))
      (call (SetDownloading false) ;;;
       call ClearInterval).

Definition trace {A} (c : P A) : list page_event := fst c.
Definition result {A} (c : P A) : thrown + A := snd c.

Definition is_page_fetch (e : page_event) : bool :=
  match e with PageFetch _ _ => true | _ => false end.

(** What [handleDownload] does first once the link is accepted, up to its
    request to the resolver. *)
Definition opening (url : jsstring) : list page_event :=
  [SetError (Some JNull);
   SetDownloading true; SetProgress 0; SetDownloadComplete false;
   SetError (Some JNull); SetInterval 500;
   PageFetch (lit "/api/download/tiktok") (Some (post_init url))].

(** What it does on success, and last in every case. *)
Definition celebration : list page_event :=
  [ClearInterval; SetProgress 100; SetDownloadComplete true;
   Toast [(lit "title", str (lit "Sucesso!"));
          (lit "description", str (lit "Vídeo baixado com sucesso!"));
          (lit "className", str (lit "bg-green-500 text-white"))]].

Definition failure (message : value) : list page_event :=
  [ClearInterval; SetError message;
   Toast [(lit "title", str (lit "Erro"));
          (lit "description", message);
          (lit "variant", str (lit "destructive"))]].

Definition closing : list page_event := [SetDownloading false; ClearInterval].

(** A browser whose server gives the first answer to the resolver's path
    and the second to any other. *)
Definition browser (resolver relay : page_fetch_result) : Browser :=
  {| server := fun url _ =>
       if jsstring_eqb url (lit "/api/download/tiktok") then resolver
       else relay;
     objectURL := fun _ => lit "blob:1";
     reading_message := fun v k =>
       lit "Cannot read properties of "
       ++ match v with None => lit "undefined" | Some _ => lit "null" end
       ++ lit " (reading '" ++ k ++ lit "')";
     not_a_function_message := fun f => f ++ lit " is not a function";
     primitive_message := lit "Cannot convert object to primitive value";
     malformed_message := lit "URI malformed" |}.

Definition json_answer (answer_ok : bool) (j : json) : page_fetch_result :=
  PageResolves {| page_ok := answer_ok;
                  page_json := inr j;
                  page_blob := inr [] |}.

Definition blob_answer (bytes : list Byte.byte) : page_fetch_result :=
  PageResolves {| page_ok := true;
                  page_json := inl (ErrorInstance (lit "Unexpected token"));
                  page_blob := inr bytes |}.

End Page.

(* ================================================================== *)
(** * Vocabulary of the statements *)

(** The request passes both checks of [POST], and the metadata service
    answers the call [POST] then makes with [response]. *)
Definition upstream_answers (env : Env) (request : NextRequest)
  (response : Response) : Prop :=
  exists body link encoded,
    request_json request = inr body /\
    body <> JNull /\
    truthy (own body (lit "url")) = true /\
    ToString (own body (lit "url")) = Some link /\
    test tiktokRegex link = true /\
    Encode link = Some encoded /\
    network env (lit "https://www.tikwm.com/api/?url=" ++ encoded)
      [userAgent] = Resolves response.

(** The request's body is read and holds [url], whose string form is
    [link]; [url] passes both checks of [POST], and [encodeURIComponent]
    turns it into [encoded]: [POST] goes on to call [fetch]. *)
Definition reaches_fetch (request : NextRequest) (link encoded : jsstring)
  : Prop :=
  exists body,
    request_json request = inr body /\
    body <> JNull /\
    truthy (own body (lit "url")) = true /\
    ToString (own body (lit "url")) = Some link /\
    test tiktokRegex link = true /\
    Encode link = Some encoded.

(** The number a string of decimal digits stands for. *)
Definition parse_decimal (s : jsstring) : N :=
  fold_left (fun acc c => (acc * 10 + (c - 48))%N) s 0%N.

(** A string of unreserved characters and percent signs: what can stand
    as the value of a query parameter without ending it. *)
Definition url_safe (s : jsstring) : bool :=
  forallb (fun c => uriUnescaped c || N.eqb c 37) s.

(** Code units: 16 bits each. *)
Definition code_units (s : jsstring) : Prop :=
  Forall (fun c => (c < 65536)%N) s.

(** The value of the first header of a name. *)
Fixpoint header_value (hs : list header) (name : jsstring)
  : option jsstring :=
  match hs with
  | [] => None
  | (k, v) :: rest =>
      if jsstring_eqb k name then Some v else header_value rest name
  end.

(** The file name the relay puts in its [Content-Disposition] header for
    the query parameters it received. *)
Definition relay_filename (params : list (jsstring * jsstring)) : jsstring :=
  match js_or (searchParams_get params (lit "filename"))
              (str (lit "tiktok_video.mp4")) with
  | Some (JStr name) => name
  | _ => []
  end.

(** A name that can stand between the quotes of the relay's
    [Content-Disposition] header: bytes only, and no NUL, CR or LF. *)
Definition header_safe (name : jsstring) : bool :=
  is_byte_string name && valid_header_value name.

(** The headers the relay asks [new NextResponse] for, for a file name
    and a payload. *)
Definition relay_headers (name : jsstring) (videoBuffer : list Byte.byte)
  : list header :=
  [(lit "Content-Type", lit "video/mp4");
   (lit "Content-Disposition",
    lit "attachment; filename=" ++ [dquote] ++ name ++ [dquote]);
   (lit "Content-Length", N_toString (N.of_nat (length videoBuffer)));
   (lit "Cache-Control", lit "public, max-age=3600")].

(** What [new NextResponse] throws for a file name that is not
    header-safe: the [Content-Disposition] value is refused, as no byte
    string or as no valid value. *)
Definition relay_header_error (env : Env) (name : jsstring) : thrown :=
  let v := lit "attachment; filename=" ++ [dquote] ++ name ++ [dquote] in
  ErrorInstance
    (if is_byte_string name
     then header_message env (lit "Content-Disposition") v
     else ByteString_message env v).

(** A name made of ASCII letters, digits, underscores and dots only: what
    the page asks the relay for. *)
Definition is_safe_name (name : jsstring) : bool :=
  forallb (fun c => is_alnum c || N.eqb c 95 || N.eqb c 46) name.

(** ** Scenarios: the specification's examples, and a few more *)

Module Scenario.

(** A world whose network gives one answer to every call. *)
Definition world (answer : fetch_result) : Env :=
  {| network := fun _ _ => answer;
     TypeError_message := fun v k =>
       lit "Cannot read properties of "
       ++ match v with None => lit "undefined" | Some _ => lit "null" end
       ++ lit " (reading '" ++ k ++ lit "')";
     ToPrimitive_message := lit "Cannot convert object to primitive value";
     URIError_message := lit "URI malformed";
     ByteString_message := fun s =>
       lit "Cannot convert argument to a ByteString";
     header_message := fun name v =>
       lit "Headers.append: invalid header value";
     status_message := fun st => lit "init[status] must be in the range of 200 to 599, inclusive." |}.

(** The page's request for a link. *)
Definition resolve (url : jsstring) : NextRequest :=
  {| request_json := inr (obj [(lit "url", str url)]);
     searchParams := [] |}.

(** A request to the relay: query parameters, no body. *)
Definition relay (params : list (jsstring * jsstring)) : NextRequest :=
  {| request_json := inl (ErrorInstance (lit "Unexpected end of JSON input"));
     searchParams := params |}.

(** An answer of the metadata service. *)
Definition envelope_response (st : Z) (envelope : json) : Response :=
  {| ok := Z.leb 200 st && Z.leb st 299;
     status := st;
     json_body := inr envelope;
     arrayBuffer := inr [] |}.

(** An answer of the media host. *)
Definition media_response (st : Z) (bytes : list Byte.byte) : Response :=
  {| ok := Z.leb 200 st && Z.leb st 299;
     status := st;
     json_body := inl (ErrorInstance (lit "Unexpected token"));
     arrayBuffer := inr bytes |}.

Definition demo_url : jsstring := lit "https://www.tiktok.com/@demo/video/123".

Definition demo_data (title : jsstring) : list (jsstring * value) :=
  [(lit "title", str title);
   (lit "cover", str (lit "http://x/thumb.jpg"));
   (lit "author", Some (obj [(lit "nickname", str (lit "DemoUser"))]));
   (lit "play", str (lit "http://x/wm.mp4"));
   (lit "wmplay", str (lit "http://x/nowm.mp4"))].

Definition demo_envelope (title : jsstring) : json :=
  obj [(lit "code", Some (JNum 0)); (lit "data", Some (obj (demo_data title)))].

(** The same envelope without the nested [author] object. *)
Definition anonymous_envelope : json :=
  obj [(lit "code", Some (JNum 0));
       (lit "data",
        Some (obj [(lit "title", str (lit "Funny Cat"));
                   (lit "cover", str (lit "http://x/thumb.jpg"));
                   (lit "play", str (lit "http://x/wm.mp4"));
                   (lit "wmplay", str (lit "http://x/nowm.mp4"))]))].

(** An envelope whose [author] has no [nickname]. *)
Definition nameless_envelope : json :=
  obj [(lit "code", Some (JNum 0));
       (lit "data",
        Some (obj [(lit "title", str (lit "Funny Cat"));
                   (lit "cover", str (lit "http://x/thumb.jpg"));
                   (lit "author", Some (obj [(lit "unique_id", str (lit "demo"))]));
                   (lit "play", str (lit "http://x/wm.mp4"));
                   (lit "wmplay", str (lit "http://x/nowm.mp4"))]))].

(** An error envelope of the metadata service. *)
Definition error_envelope : json :=
  obj [(lit "code", Some (JNum (-1))); (lit "msg", str (lit "Url parsing is failed!"))].

Definition three_bytes : list Byte.byte := [Byte.x00; Byte.x01; Byte.x02].

End Scenario.

(* ================================================================== *)
(** * Properties *)

(** ** The matcher against the denotation *)

Section Star.

Variable P : nat -> jsstring -> Prop.
Variable step : cont -> cont.
Hypothesis step_spec : forall k i s,
  step k i s = true <->
  exists w s', s = w ++ s' /\ P i w /\ k (i + length w) s' = true.

Variable k : cont.

Lemma star_sound fuel : forall i s,
  star step k fuel i s = true ->
  exists w s',
    s = w ++ s' /\ (w = [] \/ iter P i w) /\ k (i + length w) s' = true.
Proof.
  induction fuel as [|fuel IH]; intros i s H; simpl in H; [discriminate|].
  apply orb_true_iff in H. destruct H as [H|H].
  - apply step_spec in H. destruct H as (w1 & s1 & -> & Hw1 & H).
    destruct (Nat.eqb (i + length w1) i); [discriminate|].
    apply IH in H. destruct H as (w2 & s2 & -> & Hw2 & H).
    exists (w1 ++ w2), s2. split; [now rewrite app_assoc|]. split.
    + right. destruct Hw2 as [-> | Hw2].
      * rewrite app_nil_r. now apply iter_one.
      * now apply iter_more.
    + now rewrite length_app, Nat.add_assoc.
  - exists [], s. rewrite Nat.add_0_r. auto.
Qed.

Lemma star_here fuel i s :
  length s < fuel -> k i s = true -> star step k fuel i s = true.
Proof.
  destruct fuel; [lia|]. intros _ H. simpl. rewrite H. apply orb_true_r.
Qed.

Lemma star_iter i w :
  iter P i w ->
  forall fuel s',
    length (w ++ s') < fuel -> k (i + length w) s' = true ->
    star step k fuel i (w ++ s') = true.
Proof.
  induction 1 as [i w Hw | i w1 w2 Hw1 _ IH]; intros fuel s' Hfuel Hk.
  - destruct w as [|c w].
    + apply star_here; [exact Hfuel|]. now rewrite Nat.add_0_r in Hk.
    + destruct fuel as [|fuel]; [lia|]. simpl star.
      apply orb_true_iff. left. apply step_spec.
      exists (c :: w), s'. split; [reflexivity|]. split; [exact Hw|].
      replace (Nat.eqb (i + length (c :: w)) i) with false
        by (symmetry; apply Nat.eqb_neq; simpl; lia).
      apply star_here; [|exact Hk].
      rewrite length_app in Hfuel. simpl in Hfuel. lia.
  - destruct w1 as [|c w1].
    + simpl in *. rewrite Nat.add_0_r in *. now apply IH.
    + destruct fuel as [|fuel]; [lia|]. simpl star.
      apply orb_true_iff. left. apply step_spec.
      exists (c :: w1), (w2 ++ s'). split; [now rewrite <- app_assoc|].
      split; [exact Hw1|].
      replace (Nat.eqb (i + length (c :: w1)) i) with false
        by (symmetry; apply Nat.eqb_neq; simpl; lia).
      apply IH.
      * rewrite !length_app in *. simpl in Hfuel. lia.
      * now rewrite length_app, Nat.add_assoc in Hk.
Qed.

End Star.

Lemma m_denote r : forall k i s,
  m r k i s = true <->
  exists w s', s = w ++ s' /\ denote r i w /\ k (i + length w) s' = true.
Proof.
  induction r as [| |c| |a IHa b IHb|a IHa b IHb|a IHa|a IHa];
    intros k i s; cbn [m].
  - split.
    + intros H. exists [], s. now rewrite Nat.add_0_r.
    + intros (w & s' & -> & Hw & H). simpl in Hw. subst w.
      now rewrite Nat.add_0_r in H.
  - rewrite andb_true_iff, Nat.eqb_eq. split.
    + intros [-> H]. now exists [], s.
    + intros (w & s' & -> & [-> ->] & H). auto.
  - destruct s as [|x s].
    + split; [discriminate|].
      intros (w & s' & E & Hw & _). simpl in Hw. subst w. discriminate.
    + rewrite andb_true_iff, N.eqb_eq. split.
      * intros [-> H]. exists [c], s. simpl. now rewrite Nat.add_1_r.
      * intros (w & s' & E & Hw & H). simpl in Hw. subst w.
        injection E as -> ->. now rewrite Nat.add_1_r in H.
  - destruct s as [|x s].
    + split; [discriminate|].
      intros (w & s' & E & (y & -> & _) & _). discriminate.
    + rewrite andb_true_iff, negb_true_iff. split.
      * intros [Hx H]. exists [x], s. simpl. rewrite Nat.add_1_r. eauto.
      * intros (w & s' & E & (y & -> & Hy) & H).
        injection E as -> ->. now rewrite Nat.add_1_r in H.
  - rewrite IHa. split.
    + intros (w1 & s1 & -> & Hw1 & H). apply IHb in H.
      destruct H as (w2 & s2 & -> & Hw2 & H).
      exists (w1 ++ w2), s2. split; [now rewrite app_assoc|]. split.
      * simpl. eauto.
      * now rewrite length_app, Nat.add_assoc.
    + intros (w & s' & -> & (w1 & w2 & -> & Hw1 & Hw2) & H).
      exists w1, (w2 ++ s'). split; [now rewrite app_assoc|].
      split; [exact Hw1|]. apply IHb. exists w2, s'.
      rewrite length_app, Nat.add_assoc in H. auto.
  - rewrite orb_true_iff, IHa, IHb. simpl denote. split.
    + intros [(w & s' & H)|(w & s' & H)]; exists w, s'; tauto.
    + intros (w & s' & E & [H|H] & Hk); [left|right]; exists w, s'; auto.
  - rewrite orb_true_iff, IHa. simpl denote. split.
    + intros [(w & s' & -> & Hw & H)|H].
      * destruct (Nat.eqb (i + length w) i); [discriminate|].
        exists w, s'. auto.
      * exists [], s. rewrite Nat.add_0_r. auto.
    + intros (w & s' & -> & Hw & H). destruct w as [|c w].
      * right. now rewrite Nat.add_0_r in H.
      * destruct Hw as [Hw|Hw]; [discriminate|].
        left. exists (c :: w), s'. split; [reflexivity|].
        split; [exact Hw|].
        replace (Nat.eqb (i + length (c :: w)) i) with false
          by (symmetry; apply Nat.eqb_neq; simpl; lia).
        exact H.
  - rewrite IHa. simpl denote. split.
    + intros (w1 & s1 & -> & Hw1 & H).
      apply (@star_sound (denote a) (m a) IHa) in H.
      destruct H as (w2 & s2 & -> & Hw2 & H).
      exists (w1 ++ w2), s2. split; [now rewrite app_assoc|]. split.
      * destruct Hw2 as [-> | Hw2].
        -- rewrite app_nil_r. now apply iter_one.
        -- now apply iter_more.
      * now rewrite length_app, Nat.add_assoc.
    + intros (w & s' & -> & Hw & H).
      destruct Hw as [i w Hw | i w1 w2 Hw1 Hw2].
      * exists w, s'. split; [reflexivity|]. split; [exact Hw|].
        apply star_here; [|exact H]. rewrite length_app. lia.
      * exists w1, (w2 ++ s'). split; [now rewrite app_assoc|].
        split; [exact Hw1|].
        apply (@star_iter (denote a) (m a) IHa); [exact Hw2| |].
        -- rewrite !length_app. lia.
        -- now rewrite length_app, Nat.add_assoc in H.
Qed.

Lemma denote_word w : forall i v, denote (word w) i v <-> v = w.
Proof.
  induction w as [|c w IH]; intros i v; simpl.
  - tauto.
  - split.
    + intros (w1 & w2 & -> & -> & H). apply IH in H. now subst.
    + intros ->. exists [c], w. repeat split. now apply IH.
Qed.

Lemma denote_ch a i v : denote (ch a) i v <-> v = [N_of_ascii a].
Proof. reflexivity. Qed.

Lemma iter_Dot_head i w :
  iter (denote Dot) i w ->
  exists c rest, w = c :: rest /\ isLineTerminator c = false.
Proof.
  destruct 1 as [i w (x & -> & Hx) | i w1 w2 (x & -> & Hx) _].
  - now exists x, [].
  - now exists x, w2.
Qed.

(** ** [test] on a pattern that starts with [^] *)

Lemma exec_from_Bol r s : forall i, exec_from (Seq Bol r) (S i) s = false.
Proof.
  induction s as [|c s IH]; intros i; simpl; [reflexivity|]. apply IH.
Qed.

Lemma test_Bol r s :
  test (Seq Bol r) s = true <-> exists w s', s = w ++ s' /\ denote r 0 w.
Proof.
  unfold test.
  assert (E : exec_from (Seq Bol r) 0 s = m r (fun _ _ => true) 0 s).
  { destruct s as [|c s]; simpl.
    - apply orb_false_r.
    - rewrite exec_from_Bol. apply orb_false_r. }
  rewrite E, m_denote. split.
  - intros (w & s' & H1 & H2 & _). eauto.
  - intros (w & s' & H1 & H2). eauto.
Qed.

(** ** The TikTok pattern, read as a set of strings *)

Lemma tiktokRegex_matches s :
  test tiktokRegex s = true <-> matches_pattern s.
Proof.
  unfold tiktokRegex. rewrite test_Bol. cbn [denote]. split.
  - intros (w & s' & -> & w1 & x1 & -> & H1 & w2 & x2 & -> & H2
            & w3 & x3 & -> & H3 & w4 & w5 & -> & H4 & H5).
    apply denote_ch in H4. subst w4.
    apply iter_Dot_head in H5. destruct H5 as (c & rest & -> & Hc).
    exists w1, w2, w3, c, (rest ++ s'). split.
    { rewrite <- !app_assoc. reflexivity. }
    split; [|split; [|split; [|exact Hc]]].
    + destruct H1 as [-> | (a & x & -> & Ha & b & d & -> & Hb & Hd)].
      * now left.
      * apply denote_word in Ha, Hd. subst a d.
        destruct Hb as [-> | Hb].
        -- right. now left.
        -- apply denote_ch in Hb. subst b. right. right. now left.
    + destruct H2 as [-> | H2]; [now left|].
      apply denote_word in H2. subst w2. right. now left.
    + destruct H3 as [H3|H3]; apply denote_word in H3; subst w3;
        [now left | right; now left].
  - intros (scheme & www & host & c & rest & -> & Hs & Hw & Hh & Hc).
    exists (scheme ++ www ++ host ++ lit "/" ++ [c]), rest. split.
    { rewrite <- !app_assoc. reflexivity. }
    exists scheme, (www ++ host ++ lit "/" ++ [c]).
    split; [reflexivity|]. split.
    { destruct Hs as [<- | [<- | [<- | []]]].
      - now left.
      - right. exists (lit "http"), (lit "://"). split; [reflexivity|].
        split; [now apply denote_word|].
        exists [], (lit "://"). split; [reflexivity|].
        split; [now left|]. now apply denote_word.
      - right. exists (lit "http"), (lit "s://"). split; [reflexivity|].
        split; [now apply denote_word|].
        exists (lit "s"), (lit "://"). split; [reflexivity|].
        split; [right; now apply denote_ch|]. now apply denote_word. }
    exists www, (host ++ lit "/" ++ [c]). split; [reflexivity|]. split.
    { destruct Hw as [<- | [<- | []]]; [now left|].
      right. now apply denote_word. }
    exists host, (lit "/" ++ [c]). split; [reflexivity|]. split.
    { destruct Hh as [<- | [<- | []]]; [left|right]; now apply denote_word. }
    exists (lit "/"), [c]. split; [reflexivity|]. split.
    { now apply denote_ch. }
    apply iter_one. exists c. auto.
Qed.

(** ** The pattern and the encoder on a few inputs *)

Example test_demo : test tiktokRegex Scenario.demo_url = true.
Proof. reflexivity. Qed.

Example test_short_link : test tiktokRegex (lit "vm.tiktok.com/ZM8abc/") = true.
Proof. reflexivity. Qed.

Example test_www_vm : test tiktokRegex (lit "http://www.vm.tiktok.com/x") = true.
Proof. reflexivity. Qed.

Example test_not_a_url : test tiktokRegex (lit "not-a-url") = false.
Proof. reflexivity. Qed.

Example test_no_path : test tiktokRegex (lit "https://tiktok.com/") = false.
Proof. reflexivity. Qed.

Example test_other_host : test tiktokRegex (lit "https://m.tiktok.com/v/1") = false.
Proof. reflexivity. Qed.

Example test_not_at_start :
  test tiktokRegex (lit "see https://tiktok.com/a") = false.
Proof. reflexivity. Qed.

Example test_line_separator :
  test tiktokRegex (lit "tiktok.com/" ++ [8232%N] ++ lit "abc") = false.
Proof. reflexivity. Qed.

Example Encode_demo :
  Encode Scenario.demo_url
  = Some (lit "https%3A%2F%2Fwww.tiktok.com%2F%40demo%2Fvideo%2F123").
Proof. reflexivity. Qed.

Example Encode_accent : Encode (lit "vídeo") = Some (lit "v%C3%ADdeo").
Proof. reflexivity. Qed.

Example Encode_pair :
  Encode [55357%N; 56832%N] = Some (lit "%F0%9F%98%80").
Proof. reflexivity. Qed.

Example Encode_lone_surrogate : Encode (lit "tiktok.com/" ++ [55357%N]) = None.
Proof. reflexivity. Qed.

(* ------------------------------------------------------------------ *)
(** ** Running a computation *)

Section Run.

Context {A B : Type}.

Lemma outcome_ret (a : A) : outcome (ret a) = inr a.
Proof. reflexivity. Qed.

Lemma outcome_throw e : outcome (@throw A e) = inl e.
Proof. reflexivity. Qed.

Lemma outcome_await (p : thrown + A) : outcome (await p) = p.
Proof. reflexivity. Qed.

Lemma outcome_bind (c : M A) (f : A -> M B) :
  outcome (bind c f) =
  match outcome c with inl e => inl e | inr a => outcome (f a) end.
Proof. unfold outcome, bind. now destruct (snd c). Qed.

Lemma outcome_try_catch (c : M A) handler :
  outcome (try_catch c handler) =
  match outcome c with inl e => outcome (handler e) | inr a => inr a end.
Proof. unfold outcome, try_catch. destruct (snd c) eqn:E; auto. Qed.

End Run.

Lemma outcome_emit e : outcome (emit e) = inr tt.
Proof. reflexivity. Qed.

Lemma outcome_fetch env url headers :
  outcome (fetch env url headers) =
  match network env url headers with
  | Rejects e => inl e
  | Resolves r => inr r
  end.
Proof. unfold fetch. rewrite outcome_bind. simpl. now destruct network. Qed.

Lemma outcome_ToString_M env v :
  outcome (ToString_M env v) =
  match ToString v with
  | Some s => inr s
  | None => inl (ErrorInstance (ToPrimitive_message env))
  end.
Proof. unfold ToString_M. now destruct ToString. Qed.

Lemma outcome_encodeURIComponent env v :
  outcome (encodeURIComponent env v) =
  match ToString v with
  | Some s =>
      match Encode s with
      | Some e => inr e
      | None => inl (ErrorInstance (URIError_message env))
      end
  | None => inl (ErrorInstance (ToPrimitive_message env))
  end.
Proof.
  unfold encodeURIComponent. rewrite outcome_bind, outcome_ToString_M.
  destruct (ToString v) as [s|]; [|reflexivity]. now destruct (Encode s).
Qed.

Lemma outcome_RegExp_test env r v :
  outcome (RegExp_test env r v) =
  match ToString v with
  | Some s => inr (test r s)
  | None => inl (ErrorInstance (ToPrimitive_message env))
  end.
Proof.
  unfold RegExp_test. rewrite outcome_bind, outcome_ToString_M.
  now destruct (ToString v).
Qed.

(** What [ToString], [test] and [encodeURIComponent] do on a value with
    a string form: no event, and the expected result. *)
Lemma ToString_M_Some env v s : ToString v = Some s -> ToString_M env v = ret s.
Proof. unfold ToString_M. now intros ->. Qed.

Lemma RegExp_test_Some env r v s :
  ToString v = Some s -> RegExp_test env r v = ret (test r s).
Proof. unfold RegExp_test, ToString_M. now intros ->. Qed.

Lemma encodeURIComponent_Some env v s :
  ToString v = Some s ->
  encodeURIComponent env v =
  match Encode s with
  | Some e => ret e
  | None => throw (ErrorInstance (URIError_message env))
  end.
Proof.
  unfold encodeURIComponent, ToString_M. intros ->.
  cbv [bind ret fst snd app]. destruct (Encode s); reflexivity.
Qed.

Lemma RegExp_test_None env r v :
  ToString v = None ->
  RegExp_test env r v = throw (ErrorInstance (ToPrimitive_message env)).
Proof. unfold RegExp_test, ToString_M. now intros ->. Qed.

Lemma strict_neq_num_zero : strict_neq_num (Some (JNum 0)) 0 = false.
Proof. reflexivity. Qed.

Lemma get_own env j k : j <> JNull -> get env (Some j) k = ret (own j k).
Proof. destruct j; try reflexivity. congruence. Qed.

Lemma own_Some_not_null j k v : own j k = Some v -> j <> JNull.
Proof. intros H ->. discriminate. Qed.

Lemma own_Some_truthy j k v : own j k = Some v -> truthy (Some j) = true.
Proof. destruct j; simpl; try discriminate. reflexivity. Qed.

Lemma truthy_not_null j : truthy (Some j) = true -> j <> JNull.
Proof. intros H ->. discriminate. Qed.

#[local] Hint Resolve own_Some_not_null truthy_not_null : core.

(** One step of a run: a law of the monad, a fact about the world at
    hand, or a redex. *)
Ltac run :=
  repeat (first
    [ rewrite outcome_try_catch | rewrite outcome_bind
    | rewrite outcome_ret | rewrite outcome_throw | rewrite outcome_await
    | rewrite outcome_fetch | rewrite outcome_emit
    | rewrite outcome_encodeURIComponent
    | rewrite outcome_RegExp_test | rewrite outcome_ToString_M
    | rewrite get_own by (congruence || eauto)
    | match goal with H : ?l = _ |- context [?l] => rewrite H end
    | progress cbv beta iota
    | progress cbn [negb]
    | progress unfold console_log, console_error ]).

(** When [new NextResponse] returns, the response has the status asked
    for. *)
Lemma NextResponse_new_status env b st hs :
  match outcome (NextResponse_new env b st hs) with
  | inl _ => True
  | inr r => res_status r = st
  end.
Proof.
  unfold NextResponse_new. destruct (first_wide hs); [exact I|].
  destruct (_ || _)%bool; [exact I|].
  rewrite outcome_bind. destruct (outcome (fill_headers env hs)); [exact I|].
  destruct b; try reflexivity; destruct (_ || _)%bool; try exact I;
    reflexivity.
Qed.

(** Whatever a thrown value is, the handlers' [catch] answers it. *)
Ltac split_outcomes :=
  repeat match goal with
         | |- context [outcome (NextResponse_new ?e ?b ?st ?hs)] =>
             pose proof (NextResponse_new_status e b st hs);
             destruct (outcome (NextResponse_new e b st hs)); run
         | |- context [if ?c then _ else _] => destruct c; run
         | |- context [match json_body ?r with _ => _ end] =>
             destruct (json_body r); run
         | |- context [match arrayBuffer ?r with _ => _ end] =>
             destruct (arrayBuffer r); run
         | |- context [match request_json ?r with _ => _ end] =>
             destruct (request_json r); run
         | |- context [match ?c with Rejects _ => _ | Resolves _ => _ end] =>
             destruct c; run
         | |- context [match ?c with Some _ => _ | None => _ end] =>
             destruct c; run
         | |- context [match outcome ?c with _ => _ end] =>
             destruct (outcome c); run
         end.

(* ------------------------------------------------------------------ *)
(** ** The resolver, path by path *)

Lemma upstream_failed_outcome env response envelope :
  ok response = false \/ envelope <> JNull ->
  outcome (upstream_failed env response envelope) =
  inr (negb (ok response)
       || strict_neq_num (own envelope (lit "code")) 0
       || negb (truthy (own envelope (lit "data")))).
Proof.
  intros H. unfold upstream_failed.
  destruct (ok response); cbn [negb orb]; [|reflexivity].
  destruct H as [H|H]; [discriminate|]. run.
  destruct (strict_neq_num _ 0); run; reflexivity.
Qed.

(** Every run of [POST] ends in a response: nothing it throws escapes. *)
Lemma POST_responds env request :
  exists r, outcome (POST env request) = inr r.
Proof.
  unfold POST. rewrite outcome_try_catch.
  match goal with
  | |- exists r, match ?o with _ => _ end = _ => destruct o
  end; run; eauto.
Qed.

(** The two checks refuse the request with status 400, before anything
    else happens. *)
Lemma POST_refused env request body :
  request_json request = inr body ->
  body <> JNull ->
  truthy (own body (lit "url")) = false \/
  (exists link,
      ToString (own body (lit "url")) = Some link /\
      test tiktokRegex link = false) ->
  POST env request =
    ([], inr (NextResponse_json
                (obj [(lit "error",
                       str (if truthy (own body (lit "url"))
                            then lit "URL inválida do TikTok"
                            else lit "URL é obrigatória"))])
                400)).
Proof.
  intros Hbody Hnull H. unfold POST. rewrite Hbody.
  cbn [await bind fst snd]. rewrite get_own by assumption.
  cbn [ret bind fst snd]. destruct (truthy (own body (lit "url"))).
  - destruct H as [H|(link & Hlink & H)]; [discriminate|]. cbn [negb].
    rewrite (RegExp_test_Some _ _ _ _ Hlink), H. reflexivity.
  - reflexivity.
Qed.

(** Once the two checks are passed and the service has answered, the
    outcome is that of the code after [fetch]. *)
Ltac after_fetch Hup :=
  let body := fresh "body" in
  let link := fresh "link" in
  let encoded := fresh "encoded" in
  let Hbody := fresh "Hbody" in
  let Hnull := fresh "Hnull" in
  let Htruthy := fresh "Htruthy" in
  let Hlink := fresh "Hlink" in
  let Htest := fresh "Htest" in
  let Henc := fresh "Henc" in
  let Hnet := fresh "Hnet" in
  destruct Hup as
    (body & link & encoded & Hbody & Hnull & Htruthy & Hlink & Htest
     & Henc & Hnet);
  unfold POST; run.

(** The service's answer is refused: status 500, and a body that holds
    the message alone. *)
Lemma POST_upstream_failure env request response envelope :
  upstream_answers env request response ->
  json_body response = inr envelope ->
  ok response = false \/ envelope <> JNull ->
  negb (ok response)
  || strict_neq_num (own envelope (lit "code")) 0
  || negb (truthy (own envelope (lit "data"))) = true ->
  outcome (POST env request) =
    inr (NextResponse_json
           (obj [(lit "error",
                  str (lit "Erro ao obter informações do vídeo do TikTok. Verifique se o link está correto."))])
           500).
Proof.
  intros Hup Hjson Hcase Hfailed. after_fetch Hup.
  rewrite upstream_failed_outcome by assumption. run. reflexivity.
Qed.

(** The service's answer is accepted, and [data.author] can be read. *)
Lemma POST_success env request response envelope data author :
  upstream_answers env request response ->
  json_body response = inr envelope ->
  ok response = true ->
  own envelope (lit "code") = Some (JNum 0) ->
  own envelope (lit "data") = Some data ->
  truthy (Some data) = true ->
  own data (lit "author") = Some author ->
  author <> JNull ->
  outcome (POST env request) =
    inr (NextResponse_json
           (obj [(lit "success", Some (JBool true));
                 (lit "message", str (lit "Vídeo obtido com sucesso"));
                 (lit "data",
                  Some (obj [(lit "title",
                              js_or (own data (lit "title"))
                                    (str (lit "TikTok Video")));
                             (lit "thumbnail", own data (lit "cover"));
                             (lit "author", own author (lit "nickname"));
                             (lit "description", own data (lit "title"));
                             (lit "downloadUrl", own data (lit "play"));
                             (lit "noWatermarkUrl",
                              own data (lit "wmplay"))]))])
           200).
Proof.
  intros Hup Hjson Hok Hcode Hdata Htruthy Hauthor Hnull.
  pose proof (own_Some_not_null _ _ _ Hcode) as Henv.
  after_fetch Hup.
  rewrite upstream_failed_outcome by auto. run.
  rewrite strict_neq_num_zero. cbn [negb orb]. run. reflexivity.
Qed.

(** The service's answer is accepted, and [data.author] is [undefined] or
    [null]: reading its [nickname] throws, and the [catch] answers. *)
Lemma POST_no_author env request response envelope data :
  upstream_answers env request response ->
  json_body response = inr envelope ->
  ok response = true ->
  own envelope (lit "code") = Some (JNum 0) ->
  own envelope (lit "data") = Some data ->
  truthy (Some data) = true ->
  own data (lit "author") = undefined \/ own data (lit "author") = Some JNull ->
  outcome (POST env request) =
    inr (NextResponse_json
           (obj [(lit "error", str (lit "Erro ao processar o vídeo"));
                 (lit "details",
                  str (TypeError_message env (own data (lit "author"))
                         (lit "nickname")))])
           500).
Proof.
  intros Hup Hjson Hok Hcode Hdata Htruthy Hauthor.
  pose proof (own_Some_not_null _ _ _ Hcode) as Henv.
  after_fetch Hup.
  rewrite upstream_failed_outcome by auto. run.
  rewrite strict_neq_num_zero. cbn [negb orb].
  run. destruct Hauthor as [Hauthor|Hauthor]; rewrite Hauthor; reflexivity.
Qed.

(** The service's answer does not parse as JSON: [response.json()]
    throws before [response.ok] is read, and the [catch] answers. *)
Lemma POST_unparsed env request response e :
  upstream_answers env request response ->
  json_body response = inl e ->
  outcome (POST env request) =
    inr (NextResponse_json
           (obj [(lit "error", str (lit "Erro ao processar o vídeo"));
                 (lit "details", details_of e)])
           500).
Proof. intros Hup Hjson. after_fetch Hup. reflexivity. Qed.

(** The service's answer is [null] behind an ok transport response:
    reading its [code] throws, and the [catch] answers. *)
Lemma POST_null_envelope env request response :
  upstream_answers env request response ->
  json_body response = inr JNull ->
  ok response = true ->
  outcome (POST env request) =
    inr (NextResponse_json
           (obj [(lit "error", str (lit "Erro ao processar o vídeo"));
                 (lit "details",
                  str (TypeError_message env (Some JNull) (lit "code")))])
           500).
Proof.
  intros Hup Hjson Hok. after_fetch Hup. unfold upstream_failed.
  rewrite Hok. cbn [negb]. run. reflexivity.
Qed.

Lemma json_null_dec (j : json) : {j = JNull} + {j <> JNull}.
Proof. destruct j; (now left) || (right; discriminate). Qed.

(** A request that passes the two checks is never answered with 400. *)
Lemma POST_validated_status env request body link :
  request_json request = inr body ->
  body <> JNull ->
  truthy (own body (lit "url")) = true ->
  ToString (own body (lit "url")) = Some link ->
  test tiktokRegex link = true ->
  exists r,
    outcome (POST env request) = inr r /\
    (res_status r = 200%Z \/ res_status r = 500%Z).
Proof.
  intros Hbody Hnull Htruthy Hlink Htest. unfold POST. run.
  split_outcomes; eexists; (split; [reflexivity|]); simpl; auto.
Qed.

(* ------------------------------------------------------------------ *)
(** ** The relay's headers *)

Lemma lit_ascii_head (a : ascii) (s : string) :
  (N_of_ascii a <? 128)%N = true ->
  lit (String a s) = N_of_ascii a :: lit s.
Proof. intros H. unfold lit. cbn [list_ascii_of_string map utf16_of_utf8]. now rewrite H. Qed.

Lemma forallb_weaken {A} (f g : A -> bool) s :
  (forall c, f c = true -> g c = true) ->
  forallb f s = true -> forallb g s = true.
Proof.
  intros Hfg. induction s as [|c s IH]; [reflexivity|]. cbn [forallb].
  intros H. apply andb_true_iff in H. destruct H as [Hc Hs].
  now rewrite (Hfg c Hc), IH.
Qed.

(** A number's decimal form is made of digits. *)
Lemma string_of_uint_digits d :
  forallb (fun c => (48 <=? c) && (c <=? 57))%N
    (lit (NilEmpty.string_of_uint d)) = true.
Proof.
  induction d; cbn [NilEmpty.string_of_uint]; [reflexivity|..];
    rewrite lit_ascii_head by reflexivity; cbn [forallb]; rewrite IHd;
    reflexivity.
Qed.

Lemma N_toString_digits n :
  forallb (fun c => (48 <=? c) && (c <=? 57))%N (N_toString n) = true.
Proof.
  unfold N_toString, NilZero.string_of_uint.
  destruct (N.to_uint n); [reflexivity|..]; apply string_of_uint_digits.
Qed.

Lemma strip_leading_head c s :
  is_http_whitespace c = false -> strip_leading (c :: s) = c :: s.
Proof. intros H. cbn [strip_leading]. now rewrite H. Qed.

(** A value that starts and ends with something else than whitespace is
    left as it is. *)
Lemma normalize_ends c mid d :
  is_http_whitespace c = false ->
  is_http_whitespace d = false ->
  normalize_header_value (c :: mid ++ [d]) = c :: mid ++ [d].
Proof.
  intros Hc Hd. unfold normalize_header_value.
  rewrite strip_leading_head by assumption.
  rewrite app_comm_cons, rev_app_distr.
  change (rev [d] ++ rev (c :: mid)) with (d :: rev (c :: mid)).
  rewrite strip_leading_head by assumption.
  change (d :: rev (c :: mid)) with ([d] ++ rev (c :: mid)).
  rewrite rev_app_distr, rev_involutive. reflexivity.
Qed.

Lemma normalize_digits s :
  forallb (fun c => (48 <=? c) && (c <=? 57))%N s = true ->
  normalize_header_value s = s.
Proof.
  intros H. destruct s as [|c s]; [reflexivity|].
  destruct (exists_last (l := c :: s)) as (mid & d & E); [discriminate|].
  assert (Hall : forall x, In x (c :: s) -> is_http_whitespace x = false).
  { intros x Hx. rewrite forallb_forall in H. specialize (H x Hx).
    unfold is_http_whitespace.
    destruct (N.eqb_spec x 9), (N.eqb_spec x 10), (N.eqb_spec x 13),
      (N.eqb_spec x 32); subst; try discriminate; reflexivity. }
  destruct mid as [|c' mid].
  - injection E as -> ->. unfold normalize_header_value.
    rewrite strip_leading_head by (apply Hall; now left).
    cbn [rev app]. rewrite strip_leading_head by (apply Hall; now left).
    reflexivity.
  - rewrite E. cbn [app]. apply normalize_ends.
    + apply Hall. rewrite E. now left.
    + apply Hall. rewrite E. apply in_or_app. right. now left.
Qed.

Lemma is_byte_string_app a b :
  is_byte_string (a ++ b) = is_byte_string a && is_byte_string b.
Proof. apply forallb_app. Qed.

Lemma valid_header_value_app a b :
  valid_header_value (a ++ b) = valid_header_value a && valid_header_value b.
Proof. apply forallb_app. Qed.

Lemma disposition_shape name :
  lit "attachment; filename=" ++ [dquote] ++ name ++ [dquote] =
  97%N :: (lit "ttachment; filename=" ++ [dquote] ++ name) ++ [dquote].
Proof.
  assert (E : lit "attachment; filename=" = 97%N :: lit "ttachment; filename=")
    by (vm_compute; reflexivity).
  rewrite E, <- app_comm_cons. f_equal.
Qed.

Lemma disposition_bytes name :
  is_byte_string (lit "attachment; filename=" ++ [dquote] ++ name ++ [dquote])
  = is_byte_string name.
Proof.
  assert (E : is_byte_string (lit "attachment; filename=") = true)
    by (vm_compute; reflexivity).
  rewrite !is_byte_string_app, E.
  change (is_byte_string [dquote]) with true.
  now rewrite andb_true_r.
Qed.

Lemma disposition_valid name :
  valid_header_value
    (normalize_header_value
       (lit "attachment; filename=" ++ [dquote] ++ name ++ [dquote]))
  = valid_header_value name.
Proof.
  rewrite disposition_shape, normalize_ends by reflexivity.
  rewrite <- disposition_shape.
  assert (E : valid_header_value (lit "attachment; filename=") = true)
    by (vm_compute; reflexivity).
  rewrite !valid_header_value_app, E.
  change (valid_header_value [dquote]) with true.
  now rewrite andb_true_r.
Qed.

Lemma disposition_normal name :
  normalize_header_value
    (lit "attachment; filename=" ++ [dquote] ++ name ++ [dquote])
  = lit "attachment; filename=" ++ [dquote] ++ name ++ [dquote].
Proof.
  rewrite disposition_shape. now rewrite normalize_ends by reflexivity.
Qed.

(** [new NextResponse] on the relay's headers: the response when the file
    name is header-safe, a TypeError otherwise. *)
Lemma NextResponse_new_relay env name videoBuffer :
  NextResponse_new env (BodyBytes videoBuffer) 200
    (relay_headers name videoBuffer) =
  if header_safe name then
    ret {| res_body := BodyBytes videoBuffer;
           res_status := 200;
           res_headers := relay_headers name videoBuffer |}
  else throw (relay_header_error env name).
Proof.
  pose proof (N_toString_digits (N.of_nat (length videoBuffer))) as Hd.
  assert (Hb : is_byte_string (N_toString (N.of_nat (length videoBuffer)))
               = true).
  { revert Hd. apply forallb_weaken. intros c H.
    apply andb_true_iff in H. destruct H as [_ H].
    apply N.leb_le in H. apply N.leb_le. lia. }
  assert (Hv : valid_header_value
                 (N_toString (N.of_nat (length videoBuffer))) = true).
  { revert Hd. apply forallb_weaken. intros c H.
    apply andb_true_iff in H. destruct H as [H _]. apply N.leb_le in H.
    destruct (N.eqb_spec c 0), (N.eqb_spec c 10), (N.eqb_spec c 13);
      subst; try lia; reflexivity. }
  pose proof (normalize_digits _ Hd) as Hn.
  assert (C1 : is_byte_string (lit "Content-Type") = true)
    by (vm_compute; reflexivity).
  assert (C2 : is_byte_string (lit "video/mp4") = true)
    by (vm_compute; reflexivity).
  assert (C3 : is_byte_string (lit "Content-Disposition") = true)
    by (vm_compute; reflexivity).
  assert (C4 : is_byte_string (lit "Content-Length") = true)
    by (vm_compute; reflexivity).
  assert (C5 : is_byte_string (lit "Cache-Control") = true)
    by (vm_compute; reflexivity).
  assert (C6 : is_byte_string (lit "public, max-age=3600") = true)
    by (vm_compute; reflexivity).
  assert (N1 : valid_header_name (lit "Content-Type") = true)
    by (vm_compute; reflexivity).
  assert (N2 : valid_header_name (lit "Content-Disposition") = true)
    by (vm_compute; reflexivity).
  assert (N3 : valid_header_name (lit "Content-Length") = true)
    by (vm_compute; reflexivity).
  assert (N4 : valid_header_name (lit "Cache-Control") = true)
    by (vm_compute; reflexivity).
  assert (V1 : normalize_header_value (lit "video/mp4") = lit "video/mp4")
    by (vm_compute; reflexivity).
  assert (V2 : valid_header_value (lit "video/mp4") = true)
    by (vm_compute; reflexivity).
  assert (V3 : normalize_header_value (lit "public, max-age=3600")
               = lit "public, max-age=3600")
    by (vm_compute; reflexivity).
  assert (V4 : valid_header_value (lit "public, max-age=3600") = true)
    by (vm_compute; reflexivity).
  unfold NextResponse_new, relay_headers, header_safe, relay_header_error.
  cbn [first_wide]. rewrite C1, C2, C3, C4, C5, C6, Hb, disposition_bytes.
  cbn [negb]. destruct (is_byte_string name); cbn [negb andb]; [|reflexivity].
  change ((200 <? 200)%Z || (599 <? 200)%Z) with false. cbv iota.
  cbn [fill_headers].
  rewrite N1, N2, N3, N4, V1, V2, V3, V4, Hn, Hv, disposition_valid,
    disposition_normal.
  cbn [negb orb]. destruct (valid_header_value name); reflexivity.
Qed.

(** The file name the relay uses is a string, whatever the query. *)
Lemma searchParams_get_cases params name :
  searchParams_get params name = Some JNull \/
  exists v, searchParams_get params name = str v.
Proof.
  induction params as [|[k v] rest IH]; cbn [searchParams_get]; [now left|].
  destruct (jsstring_eqb k name); [right; now exists v|exact IH].
Qed.

Lemma filename_string params :
  js_or (searchParams_get params (lit "filename"))
        (str (lit "tiktok_video.mp4"))
  = str (relay_filename params).
Proof.
  unfold relay_filename.
  destruct (searchParams_get_cases params (lit "filename")) as [E|(v & E)];
    rewrite E; [reflexivity|].
  unfold js_or. destruct v; reflexivity.
Qed.

(* ------------------------------------------------------------------ *)
(** ** The relay, path by path *)

Lemma GET_responds env request :
  exists r, outcome (GET env request) = inr r.
Proof.
  unfold GET. rewrite outcome_try_catch.
  match goal with
  | |- exists r, match ?o with _ => _ end = _ => destruct o
  end; run; eauto.
Qed.

(** No media URL: status 400, before anything else happens. *)
Lemma GET_refused env request :
  truthy (searchParams_get (searchParams request) (lit "url")) = false ->
  GET env request =
    ([], inr (NextResponse_json
                (obj [(lit "error", str (lit "URL do vídeo é obrigatória"))])
                400)).
Proof. intros H. unfold GET. cbv zeta. rewrite H. reflexivity. Qed.

(** The run of the relay on a media URL, by what the media host does and
    by the file name asked for. *)
Lemma GET_run env request videoUrl :
  searchParams_get (searchParams request) (lit "url") = str videoUrl ->
  videoUrl <> [] ->
  GET env request =
    ([ConsoleLog [AText (lit "Downloading TikTok video from: " ++ videoUrl)];
      Fetch videoUrl [userAgent]]
     ++ match network env videoUrl [userAgent] with
        | Rejects e =>
            [ConsoleError
               [AText (lit "Erro ao baixar vídeo do TikTok:"); AThrown e]]
        | Resolves response =>
            if ok response then
              match arrayBuffer response with
              | inl e =>
                  [ConsoleError
                     [AText (lit "Erro ao baixar vídeo do TikTok:");
                      AThrown e]]
              | inr _ =>
                  if header_safe (relay_filename (searchParams request))
                  then []
                  else
                    [ConsoleError
                       [AText (lit "Erro ao baixar vídeo do TikTok:");
                        AThrown
                          (relay_header_error env
                             (relay_filename (searchParams request)))]]
              end
            else
              [ConsoleError
                 [AText (lit "Failed to fetch video:");
                  AValue (Some (JNum (status response)))]]
        end,
     match network env videoUrl [userAgent] with
     | Rejects e =>
         inr (NextResponse_json
                (obj [(lit "error", str (lit "Erro ao baixar o vídeo"));
                      (lit "details", details_of e)])
                500)
     | Resolves response =>
         if ok response then
           match arrayBuffer response with
           | inl e =>
               inr (NextResponse_json
                      (obj [(lit "error", str (lit "Erro ao baixar o vídeo"));
                            (lit "details", details_of e)])
                      500)
           | inr videoBuffer =>
               if header_safe (relay_filename (searchParams request))
               then
                 inr {| res_body := BodyBytes videoBuffer;
                        res_status := 200;
                        res_headers :=
                          relay_headers
                            (relay_filename (searchParams request))
                            videoBuffer |}
               else
                 inr (NextResponse_json
                        (obj [(lit "error",
                               str (lit "Erro ao baixar o vídeo"));
                              (lit "details",
                               details_of
                                 (relay_header_error env
                                    (relay_filename
                                       (searchParams request))))])
                        500)
           end
         else
           inr (NextResponse_json
                  (obj [(lit "error",
                         str (lit "Falha ao baixar o vídeo do servidor do TikTok"))])
                  500)
     end).
Proof.
  intros Hurl Hne. unfold GET. cbv zeta. rewrite Hurl, filename_string.
  assert (Ht : truthy (str videoUrl) = true) by (now destruct videoUrl).
  rewrite Ht. cbn [negb].
  rewrite !(ToString_M_Some env (str videoUrl) videoUrl) by reflexivity.
  rewrite (ToString_M_Some env (str (relay_filename (searchParams request)))
             (relay_filename (searchParams request))) by reflexivity.
  unfold fetch, console_log, console_error, emit, try_catch, bind, await, ret.
  cbn [fst snd app].
  destruct (network env videoUrl [userAgent]) as [e|response];
    cbn [fst snd app throw ret]; [reflexivity|].
  destruct (ok response); cbn [negb fst snd app]; [|reflexivity].
  destruct (arrayBuffer response) as [e|videoBuffer]; [reflexivity|].
  cbn [fst snd app].
  match goal with
  | |- context [NextResponse_new env _ 200%Z ?hs] =>
      change hs
        with (relay_headers (relay_filename (searchParams request))
                videoBuffer)
  end.
  rewrite NextResponse_new_relay.
  destruct (header_safe (relay_filename (searchParams request)));
    reflexivity.
Qed.

(* ------------------------------------------------------------------ *)
(** ** The page's side *)

Lemma trimStart_nil s :
  trimStart s = [] ->
  Forall (fun c => isWhiteSpace c || isLineTerminator c = true) s.
Proof.
  induction s as [|c s IH]; simpl; [constructor|].
  destruct (isWhiteSpace c || isLineTerminator c) eqn:E; [|discriminate].
  intros H. constructor; auto.
Qed.

Lemma trim_nil c s :
  isWhiteSpace c || isLineTerminator c = false -> trim (c :: s) <> [].
Proof.
  intros Hc H. unfold trim in H. simpl trimStart in H. rewrite Hc in H.
  apply (f_equal (@rev code_unit)) in H. rewrite rev_involutive in H.
  simpl rev at 2 in H. apply trimStart_nil in H.
  apply Forall_rev in H. rewrite rev_involutive in H.
  inversion H as [|? ? Hc']. congruence.
Qed.

(** A link the pattern accepts starts with a letter. *)
Lemma matches_pattern_head s :
  matches_pattern s ->
  exists c s', s = c :: s' /\ isWhiteSpace c || isLineTerminator c = false.
Proof.
  intros (scheme & www & host & c & rest & -> & Hs & Hw & Hh & _).
  destruct Hs as [<- | [<- | [<- | []]]];
    [destruct Hw as [<- | [<- | []]];
       [destruct Hh as [<- | [<- | []]]|]| |];
    eexists; eexists; (split; [reflexivity|]); reflexivity.
Qed.

Lemma validateUrl_test s : fst (validateUrl s) = test tiktokRegex s.
Proof.
  unfold validateUrl. destruct (test tiktokRegex s) eqn:E.
  - apply tiktokRegex_matches, matches_pattern_head in E.
    destruct E as (c & s' & -> & Hc). apply trim_nil with (s := s') in Hc.
    destruct (trim (c :: s')); [congruence|reflexivity].
  - now destruct (truthy (str (trim s))).
Qed.

Lemma sanitize_safe s : is_safe_name (sanitize s) = true.
Proof.
  unfold is_safe_name, sanitize. induction s as [|c s IH]; [reflexivity|].
  simpl. rewrite IH, andb_true_r.
  destruct (is_alnum c) eqn:E; [now rewrite E|reflexivity].
Qed.

Lemma download_filename_safe title :
  is_safe_name (download_filename title) = true.
Proof.
  unfold download_filename, is_safe_name. rewrite forallb_app.
  apply andb_true_iff. split; [apply sanitize_safe|reflexivity].
Qed.

(** A name of letters, digits, underscores and dots can stand in a
    header. *)
Lemma safe_name_header_safe name :
  is_safe_name name = true -> header_safe name = true.
Proof.
  intros H. unfold header_safe. apply andb_true_iff. split; revert H;
    apply forallb_weaken; intros c H; unfold is_alnum in H;
    repeat match goal with
           | H : _ || _ = true |- _ => apply orb_true_iff in H; destruct H
           | H : _ && _ = true |- _ => apply andb_true_iff in H; destruct H
           | H : (_ <=? _)%N = true |- _ => apply N.leb_le in H
           | H : (_ =? _)%N = true |- _ => apply N.eqb_eq in H
           end;
    try (apply N.leb_le; lia);
    destruct (N.eqb_spec c 0), (N.eqb_spec c 10), (N.eqb_spec c 13);
    subst; try lia; reflexivity.
Qed.

(* ================================================================== *)
(** * The specification's claims *)

Import Scenario.

(** C1 (resolver, field mapping). When the request has passed the checks
    and the metadata service answers successfully with an envelope whose
    [code] is 0 and whose [data] holds a non-empty [title], a [cover], an
    [author] with a [nickname], a [play] and a [wmplay], [POST] returns
    the success response whose [data] maps [cover] to [thumbnail],
    [title] to both [title] and [description], [author.nickname] to
    [author], [play] to [downloadUrl] and [wmplay] to [noWatermarkUrl],
    with [success] true. *)
Theorem C1_resolver_maps_fields env request response envelope data
    title cover author nickname play wmplay :
  upstream_answers env request response ->
  ok response = true ->
  json_body response = inr envelope ->
  own envelope (lit "code") = Some (JNum 0) ->
  own envelope (lit "data") = Some data ->
  own data (lit "title") = Some title ->
  truthy (Some title) = true ->
  own data (lit "cover") = Some cover ->
  own data (lit "author") = Some author ->
  own author (lit "nickname") = Some nickname ->
  own data (lit "play") = Some play ->
  own data (lit "wmplay") = Some wmplay ->
  outcome (POST env request) =
    inr (NextResponse_json
           (JObj [(lit "success", JBool true);
                  (lit "message", JStr (lit "Vídeo obtido com sucesso"));
                  (lit "data",
                   JObj [(lit "title", title);
                         (lit "thumbnail", cover);
                         (lit "author", nickname);
                         (lit "description", title);
                         (lit "downloadUrl", play);
                         (lit "noWatermarkUrl", wmplay)])])
           200).
Proof.
  intros Hup Hok Hjson Hcode Hdata Htitle Htruthy Hcover Hauthor Hnick
    Hplay Hwmplay.
  rewrite (POST_success env request response envelope data author); eauto.
  - rewrite Htitle, Hcover, Hnick, Hplay, Hwmplay.
    unfold js_or. rewrite Htruthy. reflexivity.
  - eauto using own_Some_truthy.
Qed.

(** The specification's example: the link
    [https://www.tiktok.com/@demo/video/123] and the "Funny Cat"
    envelope. *)
Lemma C1_witness :
  outcome (POST (world (Resolves (envelope_response 200
                                    (demo_envelope (lit "Funny Cat")))))
                (resolve demo_url)) =
    inr (NextResponse_json
           (JObj [(lit "success", JBool true);
                  (lit "message", JStr (lit "Vídeo obtido com sucesso"));
                  (lit "data",
                   JObj [(lit "title", JStr (lit "Funny Cat"));
                         (lit "thumbnail", JStr (lit "http://x/thumb.jpg"));
                         (lit "author", JStr (lit "DemoUser"));
                         (lit "description", JStr (lit "Funny Cat"));
                         (lit "downloadUrl", JStr (lit "http://x/wm.mp4"));
                         (lit "noWatermarkUrl",
                          JStr (lit "http://x/nowm.mp4"))])])
           200).
Proof.
  apply (C1_resolver_maps_fields
           (world (Resolves (envelope_response 200
                               (demo_envelope (lit "Funny Cat")))))
           (resolve demo_url)
           (envelope_response 200 (demo_envelope (lit "Funny Cat")))
           (demo_envelope (lit "Funny Cat"))
           (obj (demo_data (lit "Funny Cat")))
           (JStr (lit "Funny Cat"))
           (JStr (lit "http://x/thumb.jpg"))
           (obj [(lit "nickname", str (lit "DemoUser"))])
           (JStr (lit "DemoUser"))
           (JStr (lit "http://x/wm.mp4"))
           (JStr (lit "http://x/nowm.mp4")));
    try reflexivity.
  exists (obj [(lit "url", str demo_url)]), demo_url.
  exists (lit "https%3A%2F%2Fwww.tiktok.com%2F%40demo%2Fvideo%2F123").
  repeat split; try reflexivity. discriminate.
Defined.

(** C2 (validator), corrected. [tiktokRegex.test] accepts exactly the
    strings made of an optional [http://] or [https://], an optional
    [www.], [tiktok.com] or [vm.tiktok.com], a slash, and a next
    character that is not a line terminator; the page's [validateUrl]
    returns that same verdict, and [POST] answers a string link with
    status 400 exactly when the verdict is false. *)
Theorem C2_validator_pattern s :
  (test tiktokRegex s = true <-> matches_pattern s) /\
  fst (validateUrl s) = test tiktokRegex s /\
  (forall env request body,
      request_json request = inr body ->
      body <> JNull ->
      own body (lit "url") = str s ->
      exists r,
        outcome (POST env request) = inr r /\
        (res_status r = 400%Z <-> test tiktokRegex s = false)).
Proof.
  split; [apply tiktokRegex_matches|]. split; [apply validateUrl_test|].
  intros env request body Hbody Hnull Hurl.
  destruct (test tiktokRegex s) eqn:E.
  - destruct (POST_validated_status env request body s) as (r & Hr & Hst);
      try assumption.
    + rewrite Hurl. destruct s; [discriminate E|reflexivity].
    + rewrite Hurl. reflexivity.
    + exists r. split; [exact Hr|].
      split; [intros H; rewrite H in Hst; now destruct Hst|discriminate].
  - rewrite (POST_refused env request body Hbody Hnull).
    + eexists. split; [reflexivity|]. simpl. tauto.
    + right. exists s. rewrite Hurl. now split.
Qed.

Lemma C2_witness :
  exists r,
    outcome (POST (world (Rejects NotAnError)) (resolve (lit "not-a-url")))
    = inr r /\
    (res_status r = 400%Z <-> test tiktokRegex (lit "not-a-url") = false).
Proof.
  apply (proj2 (proj2 (C2_validator_pattern (lit "not-a-url")))
           (world (Rejects NotAnError)) (resolve (lit "not-a-url"))
           (obj [(lit "url", str (lit "not-a-url"))])).
  - reflexivity.
  - discriminate.
  - reflexivity.
Defined.

(** The contract as the specification words it accepts a line feed after
    the slash; the pattern does not. *)
Lemma C2_counterexample :
  matches_description (lit "tiktok.com/" ++ [10%N]) /\
  test tiktokRegex (lit "tiktok.com/" ++ [10%N]) = false.
Proof.
  split; [|reflexivity].
  exists [], [], (lit "tiktok.com"), 10%N, []. simpl. tauto.
Qed.

(** C3 (resolver, invalid input), corrected. A request whose body is a
    JSON value other than [null], and whose [url] is missing, empty or
    otherwise falsy, or has a string form that fails the TikTok pattern,
    is answered with status 400 and an [error] message, and the run has
    no event at all: [fetch] is not called.  A request whose body cannot
    be read as JSON or is [null], or whose [url] has no string form, is
    answered by the handler's [catch] with status 500 and the thrown
    error's message as [details]; [fetch] is not called either. *)
Theorem C3_invalid_url_rejected env request :
  (forall body,
      request_json request = inr body ->
      body <> JNull ->
      truthy (own body (lit "url")) = false \/
      (exists link,
          ToString (own body (lit "url")) = Some link /\
          test tiktokRegex link = false) ->
      exists msg,
        POST env request =
          ([], inr (NextResponse_json (JObj [(lit "error", JStr msg)]) 400)) /\
        fetches (POST env request) = []) /\
  (forall e,
      request_json request = inl e \/
      (request_json request = inr JNull /\
       e = ErrorInstance (TypeError_message env (Some JNull) (lit "url"))) \/
      (exists body,
          request_json request = inr body /\
          body <> JNull /\
          truthy (own body (lit "url")) = true /\
          ToString (own body (lit "url")) = None /\
          e = ErrorInstance (ToPrimitive_message env)) ->
      POST env request =
        ([ConsoleError
            [AText (lit "Erro ao processar download do TikTok:"); AThrown e]],
         inr (NextResponse_json
                (obj [(lit "error", str (lit "Erro ao processar o vídeo"));
                      (lit "details", details_of e)])
                500)) /\
      fetches (POST env request) = []).
Proof.
  split.
  - intros body Hbody Hnull H.
    rewrite (POST_refused env request body Hbody Hnull H).
    eexists. split; reflexivity.
  - intros e H.
    assert (E : POST env request =
                ([ConsoleError
                    [AText (lit "Erro ao processar download do TikTok:");
                     AThrown e]],
                 inr (NextResponse_json
                        (obj [(lit "error",
                               str (lit "Erro ao processar o vídeo"));
                              (lit "details", details_of e)])
                        500))).
    { destruct H as [H | [[H ->] | (body & H & Hnull & Htruthy & Hnone & ->)]];
        unfold POST; rewrite H; [reflexivity|reflexivity|].
      cbn [await bind fst snd]. rewrite get_own by assumption.
      cbn [ret bind fst snd]. rewrite Htruthy. cbn [negb].
      rewrite (RegExp_test_None _ _ _ Hnone). reflexivity. }
    rewrite E. split; reflexivity.
Qed.

(** The specification's example, the input [not-a-url], and a request
    that has no body. *)
Lemma C3_witness :
  (exists msg,
      POST (world (Rejects NotAnError)) (resolve (lit "not-a-url")) =
        ([], inr (NextResponse_json (JObj [(lit "error", JStr msg)]) 400)) /\
      fetches (POST (world (Rejects NotAnError)) (resolve (lit "not-a-url")))
      = []) /\
  (POST (world (Rejects NotAnError)) (relay []) =
     ([ConsoleError
         [AText (lit "Erro ao processar download do TikTok:");
          AThrown (ErrorInstance (lit "Unexpected end of JSON input"))]],
      inr (NextResponse_json
             (obj [(lit "error", str (lit "Erro ao processar o vídeo"));
                   (lit "details",
                    details_of
                      (ErrorInstance (lit "Unexpected end of JSON input")))])
             500)) /\
   fetches (POST (world (Rejects NotAnError)) (relay [])) = []).
Proof.
  split.
  - apply (proj1 (C3_invalid_url_rejected (world (Rejects NotAnError))
                    (resolve (lit "not-a-url")))
             (obj [(lit "url", str (lit "not-a-url"))])).
    + reflexivity.
    + discriminate.
    + right. exists (lit "not-a-url"). split; reflexivity.
  - apply (proj2 (C3_invalid_url_rejected (world (Rejects NotAnError))
                    (relay []))
             (ErrorInstance (lit "Unexpected end of JSON input"))).
    left. reflexivity.
Defined.

(** A request without a body, a request whose body is [null], and a
    request whose [url] is the object [{toString: 1}]: none has a [url]
    that is a TikTok link, and each is answered with status 500, not
    400. *)
Lemma C3_counterexample :
  own JNull (lit "url") = undefined /\
  ToString (Some (JObj [(lit "toString", JNum 1)])) = None /\
  outcome (POST (world (Rejects NotAnError)) (relay [])) =
    inr (NextResponse_json
           (JObj [(lit "error", JStr (lit "Erro ao processar o vídeo"));
                  (lit "details", JStr (lit "Unexpected end of JSON input"))])
           500) /\
  outcome (POST (world (Rejects NotAnError))
                {| request_json := inr JNull; searchParams := [] |}) =
    inr (NextResponse_json
           (JObj [(lit "error", JStr (lit "Erro ao processar o vídeo"));
                  (lit "details",
                   JStr (lit "Cannot read properties of null (reading 'url')"))])
           500) /\
  outcome (POST (world (Rejects NotAnError))
                {| request_json :=
                     inr (JObj [(lit "url",
                                 JObj [(lit "toString", JNum 1)])]);
                   searchParams := [] |}) =
    inr (NextResponse_json
           (JObj [(lit "error", JStr (lit "Erro ao processar o vídeo"));
                  (lit "details",
                   JStr (lit "Cannot convert object to primitive value"))])
           500).
Proof. repeat split; vm_compute; reflexivity. Qed.

(** C4 (resolver, upstream failure), corrected. When the request has
    passed the checks and the service has answered, and the transport
    response is not ok, or the envelope is [null], or its [code] is not
    the number 0, or its [data] is absent (or otherwise falsy), [POST]
    answers with status 500 and a body that has an [error] message and no
    [data] property.  Which body depends on the answer, because the
    answer's JSON is read before [response.ok]: when the answer parsed
    and the transport response is not ok, or the envelope is not [null]
    and has such a [code] or [data], the body is the upstream-failure
    message alone; when the answer did not parse, or is [null] behind an
    ok transport response, the handler's [catch] answers with the
    processing-error message and the thrown error's message as
    [details]. *)
Theorem C4_upstream_failure env request response :
  upstream_answers env request response ->
  (ok response = false \/
   (exists envelope,
       json_body response = inr envelope /\
       (envelope = JNull \/
        strict_neq_num (own envelope (lit "code")) 0 = true \/
        truthy (own envelope (lit "data")) = false)) ->
   exists j,
     outcome (POST env request) = inr (NextResponse_json j 500) /\
     own j (lit "data") = undefined /\
     own j (lit "error") <> undefined) /\
  (forall envelope,
      json_body response = inr envelope ->
      ok response = false \/
      (envelope <> JNull /\
       (strict_neq_num (own envelope (lit "code")) 0 = true \/
        truthy (own envelope (lit "data")) = false)) ->
      outcome (POST env request) =
        inr (NextResponse_json
               (JObj [(lit "error",
                       JStr (lit "Erro ao obter informações do vídeo do TikTok. Verifique se o link está correto."))])
               500)) /\
  (forall e,
      json_body response = inl e ->
      outcome (POST env request) =
        inr (NextResponse_json
               (obj [(lit "error", str (lit "Erro ao processar o vídeo"));
                     (lit "details", details_of e)])
               500)) /\
  (json_body response = inr JNull ->
   ok response = true ->
   outcome (POST env request) =
     inr (NextResponse_json
            (JObj [(lit "error", JStr (lit "Erro ao processar o vídeo"));
                   (lit "details",
                    JStr (TypeError_message env (Some JNull) (lit "code")))])
            500)).
Proof.
  intros Hup.
  assert (Hfailure : forall envelope,
             json_body response = inr envelope ->
             ok response = false \/
             (envelope <> JNull /\
              (strict_neq_num (own envelope (lit "code")) 0 = true \/
               truthy (own envelope (lit "data")) = false)) ->
             outcome (POST env request) =
               inr (NextResponse_json
                      (JObj [(lit "error",
                              JStr (lit "Erro ao obter informações do vídeo do TikTok. Verifique se o link está correto."))])
                      500)).
  { intros envelope Hjson H.
    rewrite (POST_upstream_failure env request response envelope Hup Hjson).
    - reflexivity.
    - destruct H as [H | [H _]]; [now left|now right].
    - destruct H as [-> | [_ [-> | ->]]]; auto using orb_true_r.
      now destruct (ok response). }
  split; [|split; [exact Hfailure|split]].
  - intros H. destruct (json_body response) as [e|envelope] eqn:Hjson.
    + rewrite (POST_unparsed env request response e Hup Hjson).
      eexists. split; [reflexivity|].
      destruct e; (split; [reflexivity|discriminate]).
    + destruct (ok response) eqn:Hok.
      * destruct H as [H | (envelope' & E & H)]; [discriminate|].
        injection E as <-.
        destruct (json_null_dec envelope) as [-> | Hnull].
        -- rewrite (POST_null_envelope env request response Hup Hjson Hok).
           eexists. split; [reflexivity|]. split; [reflexivity|discriminate].
        -- rewrite (Hfailure envelope eq_refl).
           ++ eexists. split; [reflexivity|].
              split; [reflexivity|discriminate].
           ++ right. split; [exact Hnull|].
              destruct H as [H | H]; [congruence|exact H].
      * rewrite (Hfailure envelope eq_refl) by now left.
        eexists. split; [reflexivity|]. split; [reflexivity|discriminate].
  - intros e Hjson. exact (POST_unparsed env request response e Hup Hjson).
  - intros Hjson Hok.
    exact (POST_null_envelope env request response Hup Hjson Hok).
Qed.

(** An error envelope ([code] = -1, no [data]) behind a 200 transport
    response. *)
Lemma C4_witness :
  outcome (POST (world (Resolves (envelope_response 200 error_envelope)))
                (resolve demo_url))
  = inr (NextResponse_json
           (JObj [(lit "error",
                   JStr (lit "Erro ao obter informações do vídeo do TikTok. Verifique se o link está correto."))])
           500).
Proof.
  refine (proj1 (proj2 (C4_upstream_failure
           (world (Resolves (envelope_response 200 error_envelope)))
           (resolve demo_url)
           (envelope_response 200 error_envelope) _))
           error_envelope _ _).
  - exists (obj [(lit "url", str demo_url)]), demo_url.
    exists (lit "https%3A%2F%2Fwww.tiktok.com%2F%40demo%2Fvideo%2F123").
    repeat split; try reflexivity. discriminate.
  - reflexivity.
  - right. split; [discriminate|]. left. reflexivity.
Defined.

(** A 502 answer whose body is no JSON, as a gateway's error page is:
    the transport response is not ok, and the answer is the [catch]'s
    processing error with the parser's message, not the upstream-failure
    message alone. *)
Lemma C4_counterexample :
  ok (media_response 502 []) = false /\
  outcome (POST (world (Resolves (media_response 502 [])))
                (resolve demo_url)) =
    inr (NextResponse_json
           (JObj [(lit "error", JStr (lit "Erro ao processar o vídeo"));
                  (lit "details", JStr (lit "Unexpected token"))])
           500) /\
  outcome (POST (world (Resolves (media_response 502 [])))
                (resolve demo_url)) <>
    inr (NextResponse_json
           (JObj [(lit "error",
                   JStr (lit "Erro ao obter informações do vídeo do TikTok. Verifique se o link está correto."))])
           500).
Proof.
  split; [reflexivity|].
  assert (E : outcome (POST (world (Resolves (media_response 502 [])))
                            (resolve demo_url)) =
              inr (NextResponse_json
                     (JObj [(lit "error",
                             JStr (lit "Erro ao processar o vídeo"));
                            (lit "details", JStr (lit "Unexpected token"))])
                     500)) by (vm_compute; reflexivity).
  split; [exact E|]. rewrite E. vm_compute. discriminate.
Qed.

(** C5 (resolver, absent author), corrected. On an accepted envelope
    whose [data.author] is [undefined] or [null], reading
    [data.author.nickname] throws; the handler's [catch] turns this into
    the status 500 answer with the engine's message as [details], so
    nothing escapes, but there is no success response.  The success
    response without an [author] property is what [POST] returns when
    [data.author] is there and has no [nickname]. *)
Theorem C5_absent_author env request response envelope data :
  upstream_answers env request response ->
  json_body response = inr envelope ->
  ok response = true ->
  own envelope (lit "code") = Some (JNum 0) ->
  own envelope (lit "data") = Some data ->
  truthy (Some data) = true ->
  (own data (lit "author") = undefined \/
   own data (lit "author") = Some JNull ->
   outcome (POST env request) =
     inr (NextResponse_json
            (JObj [(lit "error", JStr (lit "Erro ao processar o vídeo"));
                   (lit "details",
                    JStr (TypeError_message env (own data (lit "author"))
                            (lit "nickname")))])
            500)) /\
  (forall author,
      own data (lit "author") = Some author ->
      author <> JNull ->
      own author (lit "nickname") = undefined ->
      outcome (POST env request) =
        inr (NextResponse_json
               (obj [(lit "success", Some (JBool true));
                     (lit "message", str (lit "Vídeo obtido com sucesso"));
                     (lit "data",
                      Some (obj [(lit "title",
                                  js_or (own data (lit "title"))
                                        (str (lit "TikTok Video")));
                                 (lit "thumbnail", own data (lit "cover"));
                                 (lit "description", own data (lit "title"));
                                 (lit "downloadUrl", own data (lit "play"));
                                 (lit "noWatermarkUrl",
                                  own data (lit "wmplay"))]))])
               200)).
Proof.
  intros Hup Hjson Hok Hcode Hdata Htruthy. split.
  - intros Hauthor.
    now rewrite (POST_no_author env request response envelope data).
  - intros author Hauthor Hnull Hnick.
    rewrite (POST_success env request response envelope data author);
      try assumption.
    rewrite Hnick. reflexivity.
Qed.

(** Both cases: the envelope without [author], and the one whose author
    has no nickname. *)
Lemma C5_witness :
  outcome (POST (world (Resolves (envelope_response 200 anonymous_envelope)))
                (resolve demo_url)) =
    inr (NextResponse_json
           (JObj [(lit "error", JStr (lit "Erro ao processar o vídeo"));
                  (lit "details",
                   JStr (lit "Cannot read properties of undefined (reading 'nickname')"))])
           500) /\
  outcome (POST (world (Resolves (envelope_response 200 nameless_envelope)))
                (resolve demo_url)) =
    inr (NextResponse_json
           (JObj [(lit "success", JBool true);
                  (lit "message", JStr (lit "Vídeo obtido com sucesso"));
                  (lit "data",
                   JObj [(lit "title", JStr (lit "Funny Cat"));
                         (lit "thumbnail", JStr (lit "http://x/thumb.jpg"));
                         (lit "description", JStr (lit "Funny Cat"));
                         (lit "downloadUrl", JStr (lit "http://x/wm.mp4"));
                         (lit "noWatermarkUrl",
                          JStr (lit "http://x/nowm.mp4"))])])
           200).
Proof.
  assert (Hup : forall envelope,
             upstream_answers
               (world (Resolves (envelope_response 200 envelope)))
               (resolve demo_url) (envelope_response 200 envelope)).
  { intros envelope. exists (obj [(lit "url", str demo_url)]), demo_url.
    exists (lit "https%3A%2F%2Fwww.tiktok.com%2F%40demo%2Fvideo%2F123").
    repeat split; try reflexivity. discriminate. }
  split.
  - refine (proj1 (C5_absent_author
             (world (Resolves (envelope_response 200 anonymous_envelope)))
             (resolve demo_url)
             (envelope_response 200 anonymous_envelope) anonymous_envelope
             (obj [(lit "title", str (lit "Funny Cat"));
                   (lit "cover", str (lit "http://x/thumb.jpg"));
                   (lit "play", str (lit "http://x/wm.mp4"));
                   (lit "wmplay", str (lit "http://x/nowm.mp4"))])
             (Hup _) _ _ _ _ _) _);
      try reflexivity. left. reflexivity.
  - refine (proj2 (C5_absent_author
             (world (Resolves (envelope_response 200 nameless_envelope)))
             (resolve demo_url)
             (envelope_response 200 nameless_envelope) nameless_envelope
             (obj [(lit "title", str (lit "Funny Cat"));
                   (lit "cover", str (lit "http://x/thumb.jpg"));
                   (lit "author",
                    Some (obj [(lit "unique_id", str (lit "demo"))]));
                   (lit "play", str (lit "http://x/wm.mp4"));
                   (lit "wmplay", str (lit "http://x/nowm.mp4"))])
             (Hup _) _ _ _ _ _)
             (obj [(lit "unique_id", str (lit "demo"))]) _ _ _);
      try reflexivity; discriminate.
Defined.

(** The "Funny Cat" envelope without its [author]: status 500, and no
    success response. *)
Lemma C5_counterexample :
  own anonymous_envelope (lit "code") = Some (JNum 0) /\
  (exists data,
      own anonymous_envelope (lit "data") = Some data /\
      own data (lit "author") = undefined) /\
  outcome (POST (world (Resolves (envelope_response 200 anonymous_envelope)))
                (resolve demo_url)) =
    inr (NextResponse_json
           (JObj [(lit "error", JStr (lit "Erro ao processar o vídeo"));
                  (lit "details",
                   JStr (lit "Cannot read properties of undefined (reading 'nickname')"))])
           500).
Proof.
  split; [reflexivity|]. split; [|reflexivity].
  eexists. split; reflexivity.
Qed.

(** C6 (relay, headers), corrected. On a successful relay of a body of N
    bytes, when the requested file name can stand in a header (its code
    units are bytes, none of them NUL, CR or LF), [GET] answers with
    status 200, the bytes, [Content-Type] [video/mp4], [Content-Length]
    the decimal numeral of N, [Cache-Control] [public, max-age=3600], and
    a [Content-Disposition] attachment header whose file name is the
    requested [filename] as it was received: the relay does not sanitize
    it.  For any other name [new NextResponse] throws, and the handler's
    [catch] answers with status 500.  A name built by the page is
    sanitized already, can stand in a header, and reaches it
    unchanged. *)
Theorem C6_relay_headers env request videoUrl response videoBuffer :
  searchParams_get (searchParams request) (lit "url") = str videoUrl ->
  videoUrl <> [] ->
  network env videoUrl [userAgent] = Resolves response ->
  ok response = true ->
  arrayBuffer response = inr videoBuffer ->
  (header_safe (relay_filename (searchParams request)) = true ->
   outcome (GET env request) =
     inr {| res_body := BodyBytes videoBuffer;
            res_status := 200;
            res_headers :=
              [(lit "Content-Type", lit "video/mp4");
               (lit "Content-Disposition",
                lit "attachment; filename=" ++ [dquote]
                ++ relay_filename (searchParams request) ++ [dquote]);
               (lit "Content-Length",
                N_toString (N.of_nat (length videoBuffer)));
               (lit "Cache-Control", lit "public, max-age=3600")] |}) /\
  (header_safe (relay_filename (searchParams request)) = false ->
   outcome (GET env request) =
     inr (NextResponse_json
            (obj [(lit "error", str (lit "Erro ao baixar o vídeo"));
                  (lit "details",
                   details_of
                     (relay_header_error env
                        (relay_filename (searchParams request))))])
            500)) /\
  (forall name,
      searchParams_get (searchParams request) (lit "filename") = str name ->
      name <> [] ->
      relay_filename (searchParams request) = name) /\
  (forall title,
      searchParams_get (searchParams request) (lit "filename")
      = str (download_filename title) ->
      relay_filename (searchParams request) = download_filename title /\
      is_safe_name (relay_filename (searchParams request)) = true /\
      header_safe (relay_filename (searchParams request)) = true).
Proof.
  intros Hurl Hne Hnet Hok Hbuf.
  pose proof (GET_run env request videoUrl Hurl Hne) as Hrun.
  rewrite Hnet, Hok, Hbuf in Hrun.
  split; [|split; [|split]].
  - intros Hsafe. rewrite Hrun, Hsafe. reflexivity.
  - intros Hsafe. rewrite Hrun, Hsafe. reflexivity.
  - intros name Hname Hn. unfold relay_filename. rewrite Hname.
    destruct name; [congruence|reflexivity].
  - intros title Htitle.
    assert (E : relay_filename (searchParams request)
                = download_filename title).
    { unfold relay_filename. rewrite Htitle.
      unfold js_or, download_filename. destruct (sanitize _); reflexivity. }
    rewrite E. split; [reflexivity|].
    split; [apply download_filename_safe|].
    apply safe_name_header_safe, download_filename_safe.
Qed.

(** Three bytes relayed under the name the page builds for the title
    "Funny Cat". *)
Lemma C6_witness :
  outcome (GET (world (Resolves (media_response 200 three_bytes)))
               (relay [(lit "url", lit "http://x/wm.mp4");
                       (lit "filename", download_filename (lit "Funny Cat"))]))
  = inr {| res_body := BodyBytes three_bytes;
           res_status := 200;
           res_headers :=
             [(lit "Content-Type", lit "video/mp4");
              (lit "Content-Disposition",
               lit "attachment; filename=" ++ [dquote]
               ++ lit "Funny_Cat.mp4" ++ [dquote]);
              (lit "Content-Length", lit "3");
              (lit "Cache-Control", lit "public, max-age=3600")] |}.
Proof.
  rewrite (proj1 (C6_relay_headers
           (world (Resolves (media_response 200 three_bytes)))
           (relay [(lit "url", lit "http://x/wm.mp4");
                   (lit "filename", download_filename (lit "Funny Cat"))])
           (lit "http://x/wm.mp4") (media_response 200 three_bytes)
           three_bytes eq_refl ltac:(discriminate) eq_refl eq_refl eq_refl)
           eq_refl).
  vm_compute. reflexivity.
Defined.

(** A requested name with a space in it reaches the header as it is,
    where its sanitized form would be [my_video_mp4]; and a requested
    name that holds a line feed reaches no header at all. *)
Lemma C6_counterexample :
  (exists r,
      outcome (GET (world (Resolves (media_response 200 three_bytes)))
                   (relay [(lit "url", lit "http://x/wm.mp4");
                           (lit "filename", lit "my video.mp4")]))
      = inr r /\
      header_value (res_headers r) (lit "Content-Disposition")
      = Some (lit "attachment; filename=" ++ [dquote]
              ++ lit "my video.mp4" ++ [dquote]) /\
      sanitize (lit "my video.mp4") = lit "my_video_mp4" /\
      is_safe_name (lit "my video.mp4") = false) /\
  outcome (GET (world (Resolves (media_response 200 three_bytes)))
               (relay [(lit "url", lit "http://x/wm.mp4");
                       (lit "filename", lit "a" ++ [10%N] ++ lit "b.mp4")]))
  = inr (NextResponse_json
           (JObj [(lit "error", JStr (lit "Erro ao baixar o vídeo"));
                  (lit "details",
                   JStr (lit "Headers.append: invalid header value"))])
           500).
Proof.
  split; [|vm_compute; reflexivity].
  eexists. split; [vm_compute; reflexivity|].
  repeat split; vm_compute; reflexivity.
Qed.

(** C7 (relay, missing URL). Without a [url] query parameter [GET]
    answers with status 400 and an [error] message, and the run has no
    event at all: [fetch] is not called. *)
Theorem C7_relay_missing_url env request :
  searchParams_get (searchParams request) (lit "url") = Some JNull ->
  GET env request =
    ([], inr (NextResponse_json
                (JObj [(lit "error", JStr (lit "URL do vídeo é obrigatória"))])
                400)) /\
  fetches (GET env request) = [].
Proof.
  intros H. rewrite (GET_refused env request) by now rewrite H.
  split; reflexivity.
Qed.

Lemma C7_witness :
  GET (world (Resolves (media_response 200 three_bytes)))
      (relay [(lit "filename", lit "a.mp4")]) =
    ([], inr (NextResponse_json
                (JObj [(lit "error", JStr (lit "URL do vídeo é obrigatória"))])
                400)) /\
  fetches (GET (world (Resolves (media_response 200 three_bytes)))
               (relay [(lit "filename", lit "a.mp4")])) = [].
Proof.
  apply (C7_relay_missing_url
           (world (Resolves (media_response 200 three_bytes)))
           (relay [(lit "filename", lit "a.mp4")])).
  reflexivity.
Defined.

(** C8 (relay, upstream failure), corrected. When the media host's
    response is not ok, [GET] answers with status 500 and a body that
    holds a fixed [error] message and nothing else; the upstream status
    code is written to the server's console with [console.error], and is
    not part of the response. *)
Theorem C8_relay_upstream_failure env request videoUrl response :
  searchParams_get (searchParams request) (lit "url") = str videoUrl ->
  videoUrl <> [] ->
  network env videoUrl [userAgent] = Resolves response ->
  ok response = false ->
  GET env request =
    ([ConsoleLog [AText (lit "Downloading TikTok video from: " ++ videoUrl)];
      Fetch videoUrl [userAgent];
      ConsoleError [AText (lit "Failed to fetch video:");
                    AValue (Some (JNum (status response)))]],
     inr (NextResponse_json
            (JObj [(lit "error",
                    JStr (lit "Falha ao baixar o vídeo do servidor do TikTok"))])
            500)).
Proof.
  intros Hurl Hne Hnet Hok.
  rewrite (GET_run env request videoUrl Hurl Hne), Hnet, Hok. reflexivity.
Qed.

Lemma C8_witness :
  GET (world (Resolves (media_response 403 [])))
      (relay [(lit "url", lit "http://x/wm.mp4")]) =
    ([ConsoleLog
        [AText (lit "Downloading TikTok video from: http://x/wm.mp4")];
      Fetch (lit "http://x/wm.mp4") [userAgent];
      ConsoleError [AText (lit "Failed to fetch video:");
                    AValue (Some (JNum 403))]],
     inr (NextResponse_json
            (JObj [(lit "error",
                    JStr (lit "Falha ao baixar o vídeo do servidor do TikTok"))])
            500)).
Proof.
  apply (C8_relay_upstream_failure
           (world (Resolves (media_response 403 [])))
           (relay [(lit "url", lit "http://x/wm.mp4")])
           (lit "http://x/wm.mp4") (media_response 403 []));
    try reflexivity. discriminate.
Defined.

(** The answers to an upstream 403 and to an upstream 404 are the same
    response, whose body has the [error] message alone: the response does
    not tell the upstream status code. *)
Lemma C8_counterexample :
  outcome (GET (world (Resolves (media_response 403 [])))
               (relay [(lit "url", lit "http://x/wm.mp4")])) =
  outcome (GET (world (Resolves (media_response 404 [])))
               (relay [(lit "url", lit "http://x/wm.mp4")])) /\
  outcome (GET (world (Resolves (media_response 403 [])))
               (relay [(lit "url", lit "http://x/wm.mp4")])) =
    inr (NextResponse_json
           (JObj [(lit "error",
                   JStr (lit "Falha ao baixar o vídeo do servidor do TikTok"))])
           500).
Proof. split; vm_compute; reflexivity. Qed.



(** C10 (relay, no validation). Whatever non-empty string the [url]
    parameter is, [GET] calls [fetch] once, on that very string, with the
    user-agent header; and when the [filename] parameter is absent or
    empty, a successful relay names the file [tiktok_video.mp4]. *)
Theorem C10_relay_fetches_any_url env request videoUrl :
  searchParams_get (searchParams request) (lit "url") = str videoUrl ->
  videoUrl <> [] ->
  fetches (GET env request) = [Fetch videoUrl [userAgent]] /\
  (searchParams_get (searchParams request) (lit "filename") = Some JNull \/
   searchParams_get (searchParams request) (lit "filename") = str [] ->
   forall response videoBuffer,
     network env videoUrl [userAgent] = Resolves response ->
     ok response = true ->
     arrayBuffer response = inr videoBuffer ->
     exists r,
       outcome (GET env request) = inr r /\
       header_value (res_headers r) (lit "Content-Disposition")
       = Some (lit "attachment; filename=" ++ [dquote]
               ++ lit "tiktok_video.mp4" ++ [dquote])).
Proof.
  intros Hurl Hne. rewrite (GET_run env request videoUrl Hurl Hne). split.
  - unfold fetches, events. cbn [fst app filter is_fetch].
    destruct (network env videoUrl [userAgent]) as [e|response];
      [reflexivity|].
    destruct (ok response); [|reflexivity].
    destruct (arrayBuffer response); [reflexivity|].
    destruct (header_safe _); reflexivity.
  - intros Hname response videoBuffer Hnet Hok Hbuf.
    rewrite Hnet, Hok, Hbuf.
    assert (E : relay_filename (searchParams request)
                = lit "tiktok_video.mp4").
    { unfold relay_filename. destruct Hname as [-> | ->]; reflexivity. }
    rewrite E.
    assert (Hsafe : header_safe (lit "tiktok_video.mp4") = true)
      by (vm_compute; reflexivity).
    rewrite Hsafe. eexists. split; [reflexivity|]. reflexivity.
Qed.

(** A string that is no TikTok link, and no parameter for the name. *)
Lemma C10_witness :
  fetches (GET (world (Resolves (media_response 200 three_bytes)))
               (relay [(lit "url", lit "ftp://example.org/not tiktok")]))
  = [Fetch (lit "ftp://example.org/not tiktok") [userAgent]] /\
  exists r,
    outcome (GET (world (Resolves (media_response 200 three_bytes)))
                 (relay [(lit "url", lit "ftp://example.org/not tiktok")]))
    = inr r /\
    header_value (res_headers r) (lit "Content-Disposition")
    = Some (lit "attachment; filename=" ++ [dquote]
            ++ lit "tiktok_video.mp4" ++ [dquote]).
Proof.
  destruct (C10_relay_fetches_any_url
              (world (Resolves (media_response 200 three_bytes)))
              (relay [(lit "url", lit "ftp://example.org/not tiktok")])
              (lit "ftp://example.org/not tiktok")) as [H1 H2];
    [reflexivity|discriminate|].
  split; [exact H1|].
  apply (H2 (or_introl eq_refl) (media_response 200 three_bytes) three_bytes);
    reflexivity.
Defined.

(* ================================================================== *)
(** * Further properties of the handlers *)

(** ** Calls to [fetch], computation by computation *)

Lemma fetches_bind {A B} (c : M A) (f : A -> M B) :
  fetches (bind c f) =
  fetches c ++ match outcome c with inl _ => [] | inr a => fetches (f a) end.
Proof.
  unfold fetches, events, outcome, bind.
  destruct (snd c); cbn [fst]; [now rewrite app_nil_r|apply filter_app].
Qed.

Lemma fetches_try_catch {A} (c : M A) handler :
  fetches (try_catch c handler) =
  fetches c ++
  match outcome c with inl e => fetches (handler e) | inr _ => [] end.
Proof.
  unfold fetches, events, outcome, try_catch.
  destruct (snd c); cbn [fst]; [apply filter_app|now rewrite app_nil_r].
Qed.

Lemma fetches_try_catch_quiet {A} (c : M A) handler :
  (forall e, fetches (handler e) = []) ->
  fetches (try_catch c handler) = fetches c.
Proof.
  intros H. rewrite fetches_try_catch.
  destruct (outcome c); [rewrite H|]; apply app_nil_r.
Qed.

Lemma fetches_bind_nil {A B} (c : M A) (f : A -> M B) :
  fetches c = [] -> (forall a, fetches (f a) = []) -> fetches (bind c f) = [].
Proof.
  intros Hc Hf. rewrite fetches_bind, Hc. destruct (outcome c); [reflexivity|apply Hf].
Qed.

Lemma fetches_get env v k : fetches (get env v k) = [].
Proof. now destruct v as [[]|]. Qed.

Lemma fetches_ToString_M env v : fetches (ToString_M env v) = [].
Proof. unfold ToString_M. now destruct ToString. Qed.

Lemma fetches_encodeURIComponent env v : fetches (encodeURIComponent env v) = [].
Proof.
  unfold encodeURIComponent.
  apply fetches_bind_nil; [apply fetches_ToString_M|].
  intros s. now destruct (Encode s).
Qed.

Lemma fetches_RegExp_test env r v : fetches (RegExp_test env r v) = [].
Proof.
  unfold RegExp_test.
  apply fetches_bind_nil; [apply fetches_ToString_M|]. reflexivity.
Qed.

Lemma fetches_fetch env url headers :
  fetches (fetch env url headers) = [Fetch url headers].
Proof.
  unfold fetch. rewrite fetches_bind. cbn. now destruct network.
Qed.

Lemma fetches_upstream_failed env response tikwmData :
  fetches (upstream_failed env response tikwmData) = [].
Proof.
  unfold upstream_failed. destruct (negb (ok response)); [reflexivity|].
  apply fetches_bind_nil; [apply fetches_get|]. intros code.
  destruct (strict_neq_num code 0); [reflexivity|].
  apply fetches_bind_nil; [apply fetches_get|]. reflexivity.
Qed.

(** A computation that reads properties, writes to the console and
    returns calls [fetch] nowhere. *)
Ltac no_fetch :=
  repeat first
    [ reflexivity
    | apply fetches_get
    | apply fetches_upstream_failed
    | apply fetches_encodeURIComponent
    | apply fetches_bind_nil; [|intros ?]
    | match goal with
      | |- fetches (if ?c then _ else _) = [] => destruct c
      end ].

(** What [POST] does after [fetch] has resolved calls [fetch] no more. *)
Lemma POST_tail_no_fetch env (response : Response) :
  fetches
    (tikwmData <- await (json_body response) ;;
     failed <- upstream_failed env response tikwmData ;;
     if failed then
       console_error
         [AText (lit "TikWM API error:"); AValue (Some tikwmData)] ;;;
       ret (NextResponse_json
              (obj [(lit "error",
                     str (lit "Erro ao obter informações do vídeo do TikTok. Verifique se o link está correto."))])
              500)
     else
       data <- get env (Some tikwmData) (lit "data") ;;
       title <- get env data (lit "title") ;;
       cover <- get env data (lit "cover") ;;
       author <- get env data (lit "author") ;;
       nickname <- get env author (lit "nickname") ;;
       description <- get env data (lit "title") ;;
       play <- get env data (lit "play") ;;
       wmplay <- get env data (lit "wmplay") ;;
       ret (NextResponse_json
              (obj [(lit "success", Some (JBool true));
                    (lit "message", str (lit "Vídeo obtido com sucesso"));
                    (lit "data",
                     Some (obj [(lit "title",
                                 js_or title (str (lit "TikTok Video")));
                                (lit "thumbnail", cover);
                                (lit "author", nickname);
                                (lit "description", description);
                                (lit "downloadUrl", play);
                                (lit "noWatermarkUrl", wmplay)]))])
              200)) = [].
Proof. no_fetch. Qed.

(** ** The resolver *)

(** X1 ([POST] always answers). Whatever the request and the network do,
    [POST] ends in a response, never in an exception, and the status of
    that response is 200, 400 or 500. *)
Theorem X1_POST_always_responds env request :
  exists r,
    outcome (POST env request) = inr r /\
    (res_status r = 200%Z \/ res_status r = 400%Z \/ res_status r = 500%Z).
Proof.
  unfold POST. run.
  split_outcomes; eexists; (split; [reflexivity|]); simpl; auto.
Qed.

(** X2 ([POST] calls one place only). [POST] calls [fetch] at most once,
    and only for a [url] that passed both checks: the call goes to
    [https://www.tikwm.com/api/?url=] followed by the encoded link, with
    the user-agent header. *)
Theorem X2_POST_fetches_tikwm_only env request :
  fetches (POST env request) = [] \/
  exists link encoded,
    reaches_fetch request link encoded /\
    fetches (POST env request)
    = [Fetch (lit "https://www.tikwm.com/api/?url=" ++ encoded) [userAgent]].
Proof.
  unfold POST. rewrite fetches_try_catch_quiet by reflexivity.
  rewrite fetches_bind. cbn [fetches events await fst filter app].
  rewrite outcome_await.
  destruct (request_json request) as [e|body] eqn:Hbody; [now left|].
  rewrite fetches_bind, fetches_get. cbn [app].
  destruct (json_null_dec body) as [-> | Hnull]; [now left|].
  rewrite get_own by assumption. rewrite outcome_ret.
  destruct (truthy (own body (lit "url"))) eqn:Ht; [|now left]. cbn [negb].
  rewrite fetches_bind, fetches_RegExp_test, outcome_RegExp_test. cbn [app].
  destruct (ToString (own body (lit "url"))) as [link|] eqn:Hlink;
    [|now left].
  destruct (test tiktokRegex link) eqn:Hr; [|now left]. cbn [negb].
  rewrite fetches_bind, fetches_ToString_M, outcome_ToString_M, Hlink.
  cbn [app]. rewrite fetches_bind.
  cbn [app fetches events console_log emit fst filter is_fetch outcome snd].
  rewrite fetches_bind, fetches_encodeURIComponent,
    outcome_encodeURIComponent, Hlink. cbn [app].
  destruct (Encode link) as [encoded|] eqn:He; [|now left].
  right. exists link, encoded. split.
  { exists body. repeat split; assumption. }
  cbv zeta. rewrite fetches_bind, fetches_fetch.
  destruct (outcome (fetch _ _ _)); [reflexivity|].
  rewrite POST_tail_no_fetch. reflexivity.
Qed.

(** The run of [POST] up to the call of [fetch]. *)
Ltac to_fetch H :=
  let body := fresh "body" in
  let Hbody := fresh "Hbody" in
  let Hnull := fresh "Hnull" in
  let Hurl := fresh "Hurl" in
  let Htruthy := fresh "Htruthy" in
  let Htest := fresh "Htest" in
  let Henc := fresh "Henc" in
  destruct H as (body & Hbody & Hnull & Htruthy & Hurl & Htest & Henc);
  unfold POST; rewrite Hbody; cbn [await bind fst snd];
  rewrite get_own by assumption; cbn [ret bind fst snd];
  rewrite Htruthy; cbn [negb];
  rewrite (RegExp_test_Some _ _ _ _ Hurl), Htest;
  cbn [negb ret bind fst snd];
  rewrite (ToString_M_Some _ _ _ Hurl), (encodeURIComponent_Some _ _ _ Hurl),
    Henc;
  cbn [console_log emit ret bind fst snd app]; cbv zeta.

(** X3 (unreadable body). When [request.json()] rejects, or the body is
    the JSON value [null] (so that reading [url] throws), [POST] answers
    with status 500, the fixed message and the error's message as
    [details]; it logs the error and calls [fetch] nowhere. *)
Theorem X3_POST_unreadable_body env request e :
  request_json request = inl e \/
  request_json request = inr JNull /\
  e = ErrorInstance (TypeError_message env (Some JNull) (lit "url")) ->
  POST env request =
    ([ConsoleError
        [AText (lit "Erro ao processar download do TikTok:"); AThrown e]],
     inr (NextResponse_json
            (obj [(lit "error", str (lit "Erro ao processar o vídeo"));
                  (lit "details", details_of e)])
            500)).
Proof.
  intros [H | [H ->]]; unfold POST; rewrite H; reflexivity.
Qed.

Lemma X3_witness :
  POST (world (Rejects NotAnError))
       {| request_json := inr JNull; searchParams := [] |} =
    ([ConsoleError
        [AText (lit "Erro ao processar download do TikTok:");
         AThrown (ErrorInstance
                    (lit "Cannot read properties of null (reading 'url')"))]],
     inr (NextResponse_json
            (JObj [(lit "error", JStr (lit "Erro ao processar o vídeo"));
                   (lit "details",
                    JStr (lit "Cannot read properties of null (reading 'url')"))])
            500)).
Proof.
  apply (X3_POST_unreadable_body (world (Rejects NotAnError))
           {| request_json := inr JNull; searchParams := [] |}
           (ErrorInstance
              (lit "Cannot read properties of null (reading 'url')"))).
  right. split; reflexivity.
Defined.

(** X4 (a link that cannot be encoded). A [url] that passes both checks
    but holds a surrogate without its partner makes [encodeURIComponent]
    throw: [POST] answers with status 500 and the URIError's message as
    [details], and [fetch] is not called. *)
Theorem X4_POST_malformed_link env request body link :
  request_json request = inr body ->
  body <> JNull ->
  truthy (own body (lit "url")) = true ->
  ToString (own body (lit "url")) = Some link ->
  test tiktokRegex link = true ->
  Encode link = None ->
  POST env request =
    ([ConsoleLog [AText (lit "Fetching TikTok video from: " ++ link)];
      ConsoleError
        [AText (lit "Erro ao processar download do TikTok:");
         AThrown (ErrorInstance (URIError_message env))]],
     inr (NextResponse_json
            (obj [(lit "error", str (lit "Erro ao processar o vídeo"));
                  (lit "details", str (URIError_message env))])
            500)).
Proof.
  intros Hbody Hnull Htruthy Hlink Htest Henc.
  unfold POST. rewrite Hbody. cbn [await bind fst snd].
  rewrite get_own by assumption. cbn [ret bind fst snd].
  rewrite Htruthy. cbn [negb].
  rewrite (RegExp_test_Some _ _ _ _ Hlink), Htest.
  cbn [negb ret bind fst snd].
  rewrite (ToString_M_Some _ _ _ Hlink), (encodeURIComponent_Some _ _ _ Hlink),
    Henc.
  reflexivity.
Qed.

Lemma X4_witness :
  POST (world (Rejects NotAnError))
       (resolve (lit "tiktok.com/" ++ [55357%N])) =
    ([ConsoleLog
        [AText (lit "Fetching TikTok video from: tiktok.com/" ++ [55357%N])];
      ConsoleError
        [AText (lit "Erro ao processar download do TikTok:");
         AThrown (ErrorInstance (lit "URI malformed"))]],
     inr (NextResponse_json
            (JObj [(lit "error", JStr (lit "Erro ao processar o vídeo"));
                   (lit "details", JStr (lit "URI malformed"))])
            500)).
Proof.
  apply (X4_POST_malformed_link (world (Rejects NotAnError))
           (resolve (lit "tiktok.com/" ++ [55357%N]))
           (obj [(lit "url", str (lit "tiktok.com/" ++ [55357%N]))])
           (lit "tiktok.com/" ++ [55357%N]));
    try reflexivity. discriminate.
Defined.

(** X5 (the metadata service cannot be reached, or does not answer in
    JSON). When [fetch] rejects, or [response.json()] rejects, [POST]
    answers with status 500, the fixed message and the error's message
    as [details], after one call to [fetch]; [response.json()] is read
    before [response.ok], so this holds whether the transport response
    was ok or not. *)
Theorem X5_POST_upstream_unreadable env request link encoded e :
  reaches_fetch request link encoded ->
  network env (lit "https://www.tikwm.com/api/?url=" ++ encoded) [userAgent]
  = Rejects e \/
  (exists response,
      network env (lit "https://www.tikwm.com/api/?url=" ++ encoded)
        [userAgent] = Resolves response /\
      json_body response = inl e) ->
  POST env request =
    ([ConsoleLog [AText (lit "Fetching TikTok video from: " ++ link)];
      Fetch (lit "https://www.tikwm.com/api/?url=" ++ encoded) [userAgent];
      ConsoleError
        [AText (lit "Erro ao processar download do TikTok:"); AThrown e]],
     inr (NextResponse_json
            (obj [(lit "error", str (lit "Erro ao processar o vídeo"));
                  (lit "details", details_of e)])
            500)).
Proof.
  intros Hreach H. to_fetch Hreach. unfold fetch.
  cbn [emit bind fst snd app].
  destruct H as [H | (response & H & Hjson)]; rewrite H;
    cbn [throw ret bind fst snd app await]; [|rewrite Hjson];
    cbn [try_catch console_error emit ret bind fst snd app];
    reflexivity.
Qed.

(** A 502 with a page of HTML for a body. *)
Lemma X5_witness :
  POST (world (Resolves (media_response 502 [])))
       (resolve demo_url) =
    ([ConsoleLog
        [AText (lit "Fetching TikTok video from: https://www.tiktok.com/@demo/video/123")];
      Fetch (lit "https://www.tikwm.com/api/?url=https%3A%2F%2Fwww.tiktok.com%2F%40demo%2Fvideo%2F123")
        [userAgent];
      ConsoleError
        [AText (lit "Erro ao processar download do TikTok:");
         AThrown (ErrorInstance (lit "Unexpected token"))]],
     inr (NextResponse_json
            (JObj [(lit "error", JStr (lit "Erro ao processar o vídeo"));
                   (lit "details", JStr (lit "Unexpected token"))])
            500)).
Proof.
  rewrite (X5_POST_upstream_unreadable
             (world (Resolves (media_response 502 [])))
             (resolve demo_url) demo_url
             (lit "https%3A%2F%2Fwww.tiktok.com%2F%40demo%2Fvideo%2F123")
             (ErrorInstance (lit "Unexpected token"))).
  - vm_compute. reflexivity.
  - exists (obj [(lit "url", str demo_url)]).
    repeat split; try reflexivity. discriminate.
  - right. exists (media_response 502 []). split; reflexivity.
Defined.

(** X6 (a [null] envelope). When the service answers an ok response
    whose JSON body is [null], reading [tikwmData.code] throws: the
    answer is the catch's status 500 with the TypeError's message as
    [details], not the upstream-failure message. *)
Theorem X6_POST_null_envelope env request link encoded response :
  reaches_fetch request link encoded ->
  network env (lit "https://www.tikwm.com/api/?url=" ++ encoded) [userAgent]
  = Resolves response ->
  ok response = true ->
  json_body response = inr JNull ->
  outcome (POST env request) =
    inr (NextResponse_json
           (obj [(lit "error", str (lit "Erro ao processar o vídeo"));
                 (lit "details",
                  str (TypeError_message env (Some JNull) (lit "code")))])
           500).
Proof.
  intros Hreach Hnet Hok Hjson. to_fetch Hreach. unfold fetch.
  cbn [emit bind fst snd app]. rewrite Hnet.
  cbn [ret bind fst snd app await]. rewrite Hjson.
  unfold upstream_failed. rewrite Hok.
  cbn [negb get throw bind fst snd app try_catch outcome
       console_error emit ret details_of].
  reflexivity.
Qed.

Lemma X6_witness :
  outcome (POST (world (Resolves (envelope_response 200 JNull)))
                (resolve demo_url)) =
    inr (NextResponse_json
           (JObj [(lit "error", JStr (lit "Erro ao processar o vídeo"));
                  (lit "details",
                   JStr (lit "Cannot read properties of null (reading 'code')"))])
           500).
Proof.
  apply (X6_POST_null_envelope
           (world (Resolves (envelope_response 200 JNull)))
           (resolve demo_url) demo_url
           (lit "https%3A%2F%2Fwww.tiktok.com%2F%40demo%2Fvideo%2F123")
           (envelope_response 200 JNull));
    try reflexivity.
  exists (obj [(lit "url", str demo_url)]).
  repeat split; try reflexivity. discriminate.
Defined.

(** X7 (what [POST] reads of the body). [POST] depends on the request
    through the truth value of [body.url] and the result of converting
    it to a string (its string form, or the TypeError when it has none)
    only: other properties of the body are ignored, and [url] is not
    checked to be a string, so an array that holds one link is treated
    as that link. *)
Theorem X7_POST_reads_url_only env request1 request2 body1 body2 :
  request_json request1 = inr body1 ->
  request_json request2 = inr body2 ->
  body1 <> JNull ->
  body2 <> JNull ->
  truthy (own body1 (lit "url")) = truthy (own body2 (lit "url")) ->
  ToString (own body1 (lit "url")) = ToString (own body2 (lit "url")) ->
  POST env request1 = POST env request2.
Proof.
  intros H1 H2 Hn1 Hn2 Ht Hs. unfold POST. rewrite H1, H2.
  cbn [await bind fst snd]. rewrite !get_own by assumption.
  cbn [ret bind fst snd].
  unfold RegExp_test, encodeURIComponent, ToString_M. rewrite Ht, Hs.
  reflexivity.
Qed.

(** The demo link inside an array, with a stray property beside it. *)
Lemma X7_witness :
  POST (world (Resolves (envelope_response 200
                           (demo_envelope (lit "Funny Cat")))))
       {| request_json :=
            inr (obj [(lit "extra", Some (JNum 1));
                      (lit "url", Some (JArr [JStr demo_url]))]);
          searchParams := [] |}
  = POST (world (Resolves (envelope_response 200
                             (demo_envelope (lit "Funny Cat")))))
         (resolve demo_url).
Proof.
  apply (X7_POST_reads_url_only
           (world (Resolves (envelope_response 200
                               (demo_envelope (lit "Funny Cat")))))
           {| request_json :=
                inr (obj [(lit "extra", Some (JNum 1));
                          (lit "url", Some (JArr [JStr demo_url]))]);
              searchParams := [] |}
           (resolve demo_url)
           (obj [(lit "extra", Some (JNum 1));
                 (lit "url", Some (JArr [JStr demo_url]))])
           (obj [(lit "url", str demo_url)]));
    try reflexivity; discriminate.
Defined.

(** A link the pattern accepts starts with [h], [w], [t] or [v]. *)
Lemma matches_pattern_first s :
  matches_pattern s ->
  exists c s',
    s = c :: s' /\ (c = 104 \/ c = 119 \/ c = 116 \/ c = 118)%N.
Proof.
  intros (scheme & www & host & c & rest & -> & Hs & Hw & Hh & _).
  destruct Hs as [<- | [<- | [<- | []]]];
    [destruct Hw as [<- | [<- | []]];
       [destruct Hh as [<- | [<- | []]]|]| |];
    eexists; eexists; (split; [reflexivity|]); tauto.
Qed.

(** A number's decimal form starts with a digit or a minus sign. *)
Lemma string_of_uint_first d :
  d <> Decimal.Nil ->
  exists c s',
    lit (NilZero.string_of_uint d) = c :: s' /\ (48 <= c <= 57)%N.
Proof.
  intros Hd.
  destruct d; [congruence| | | | | | | | | |];
    cbn [NilZero.string_of_uint NilEmpty.string_of_uint];
    rewrite lit_ascii_head by reflexivity;
    eexists; eexists; (split; [reflexivity|]); cbn; lia.
Qed.

Lemma Z_toString_first n :
  exists c s',
    Z_toString n = c :: s' /\ (c = 45 \/ 48 <= c <= 57)%N.
Proof.
  destruct n as [|p|p]; cbn [Z_toString].
  - exists 48%N, []. split; [reflexivity|]. lia.
  - destruct (string_of_uint_first (N.to_uint (Npos p)))
      as (c & s' & E & Hc); [apply Stdlib.Numbers.DecimalPos.Unsigned.to_uint_nonnil|].
    exists c, s'. split; [exact E|]. now right.
  - exists 45%N, (N_toString (Npos p)). split; [reflexivity|]. now left.
Qed.

Lemma test_number n : test tiktokRegex (Z_toString n) = false.
Proof.
  destruct (test tiktokRegex (Z_toString n)) eqn:E; [|reflexivity].
  apply tiktokRegex_matches, matches_pattern_first in E.
  destruct E as (c & s' & E & Hc).
  destruct (Z_toString_first n) as (c' & s'' & E' & Hc').
  rewrite E' in E. injection E as -> _. lia.
Qed.

(** X8 (a [url] of the wrong type). A [url] that is missing, [null], a
    boolean, a number or an object without a [toString] property of its
    own is refused with status 400 before anything else happens: either
    it is falsy, or its string form fails the pattern.  An object with a
    [toString] property of its own has no string form: the pattern test
    throws, and the [catch] answers with status 500, before any call to
    [fetch]. *)
Theorem X8_POST_refuses_scalars env request body :
  request_json request = inr body ->
  body <> JNull ->
  (match own body (lit "url") with
   | Some (JStr _) | Some (JArr _) => False
   | Some (JObj fields) => lookup (lit "toString") fields = undefined
   | _ => True
   end ->
   exists msg,
     POST env request =
       ([], inr (NextResponse_json (JObj [(lit "error", JStr msg)]) 400))) /\
  (forall fields v,
      own body (lit "url") = Some (JObj fields) ->
      lookup (lit "toString") fields = Some v ->
      POST env request =
        ([ConsoleError
            [AText (lit "Erro ao processar download do TikTok:");
             AThrown (ErrorInstance (ToPrimitive_message env))]],
         inr (NextResponse_json
                (JObj [(lit "error", JStr (lit "Erro ao processar o vídeo"));
                       (lit "details", JStr (ToPrimitive_message env))])
                500))).
Proof.
  intros Hbody Hnull. split.
  - intros Hurl. rewrite (POST_refused env request body Hbody Hnull).
    + eexists. reflexivity.
    + destruct (own body (lit "url")) as [[|[]|n| | |fields]|];
        try contradiction; try (now left).
      * right. eexists. split; reflexivity.
      * right. eexists. split; [reflexivity|apply test_number].
      * right. exists (lit "[object Object]").
        cbn [ToString json_ToString]. rewrite Hurl. split; reflexivity.
  - intros fields v Hurl Hfield. unfold POST. rewrite Hbody.
    cbn [await bind fst snd]. rewrite get_own by assumption.
    cbn [ret bind fst snd]. rewrite Hurl.
    change (truthy (Some (JObj fields))) with true. cbn [negb].
    rewrite RegExp_test_None; [reflexivity|].
    cbn [ToString json_ToString]. now rewrite Hfield.
Qed.

Lemma X8_witness :
  (exists msg,
      POST (world (Rejects NotAnError))
           {| request_json := inr (obj [(lit "url", Some (JNum 42))]);
              searchParams := [] |} =
        ([], inr (NextResponse_json (JObj [(lit "error", JStr msg)]) 400))) /\
  POST (world (Rejects NotAnError))
       {| request_json :=
            inr (JObj [(lit "url", JObj [(lit "toString", JNum 1)])]);
          searchParams := [] |} =
    ([ConsoleError
        [AText (lit "Erro ao processar download do TikTok:");
         AThrown (ErrorInstance
                    (lit "Cannot convert object to primitive value"))]],
     inr (NextResponse_json
            (JObj [(lit "error", JStr (lit "Erro ao processar o vídeo"));
                   (lit "details",
                    JStr (lit "Cannot convert object to primitive value"))])
            500)).
Proof.
  split.
  - apply (proj1 (X8_POST_refuses_scalars (world (Rejects NotAnError))
             {| request_json := inr (obj [(lit "url", Some (JNum 42))]);
                searchParams := [] |}
             (obj [(lit "url", Some (JNum 42))])
             eq_refl ltac:(discriminate))).
    exact I.
  - rewrite (proj2 (X8_POST_refuses_scalars (world (Rejects NotAnError))
               {| request_json :=
                    inr (JObj [(lit "url", JObj [(lit "toString", JNum 1)])]);
                  searchParams := [] |}
               (JObj [(lit "url", JObj [(lit "toString", JNum 1)])])
               eq_refl ltac:(discriminate))
               [(lit "toString", JNum 1)] (JNum 1) eq_refl eq_refl).
    vm_compute. reflexivity.
Defined.

(** ** The relay *)

(** X9 ([GET] always answers). Whatever the request and the network do,
    [GET] ends in a response, never in an exception, and the status of
    that response is 200, 400 or 500. *)
Theorem X9_GET_always_responds env request :
  exists r,
    outcome (GET env request) = inr r /\
    (res_status r = 200%Z \/ res_status r = 400%Z \/ res_status r = 500%Z).
Proof.
  unfold GET. cbv zeta. run.
  split_outcomes; eexists; (split; [reflexivity|]); simpl; auto.
Qed.

(** X10 (an empty media URL). A [url] parameter that is there but empty
    is refused like a missing one: status 400, and the run has no event,
    so [fetch] is not called. *)
Theorem X10_GET_empty_url env request :
  searchParams_get (searchParams request) (lit "url") = str [] ->
  GET env request =
    ([], inr (NextResponse_json
                (JObj [(lit "error", JStr (lit "URL do vídeo é obrigatória"))])
                400)).
Proof.
  intros H. rewrite (GET_refused env request) by now rewrite H.
  reflexivity.
Qed.

Lemma X10_witness :
  GET (world (Resolves (media_response 200 three_bytes)))
      (relay [(lit "url", []); (lit "url", lit "http://x/wm.mp4")]) =
    ([], inr (NextResponse_json
                (JObj [(lit "error", JStr (lit "URL do vídeo é obrigatória"))])
                400)).
Proof.
  apply (X10_GET_empty_url
           (world (Resolves (media_response 200 three_bytes)))
           (relay [(lit "url", []); (lit "url", lit "http://x/wm.mp4")])).
  reflexivity.
Defined.

(** X11 (the media cannot be fetched or read). When [fetch] rejects, or
    the response is ok and reading its body rejects, [GET] answers with
    status 500, the fixed message and the error's message as [details],
    after logging the error. *)
Theorem X11_GET_media_unreadable env request videoUrl e :
  searchParams_get (searchParams request) (lit "url") = str videoUrl ->
  videoUrl <> [] ->
  network env videoUrl [userAgent] = Rejects e \/
  (exists response,
      network env videoUrl [userAgent] = Resolves response /\
      ok response = true /\
      arrayBuffer response = inl e) ->
  GET env request =
    ([ConsoleLog [AText (lit "Downloading TikTok video from: " ++ videoUrl)];
      Fetch videoUrl [userAgent];
      ConsoleError
        [AText (lit "Erro ao baixar vídeo do TikTok:"); AThrown e]],
     inr (NextResponse_json
            (obj [(lit "error", str (lit "Erro ao baixar o vídeo"));
                  (lit "details", details_of e)])
            500)).
Proof.
  intros Hurl Hne H. rewrite (GET_run env request videoUrl Hurl Hne).
  destruct H as [-> | (response & -> & -> & ->)]; reflexivity.
Qed.

Lemma X11_witness :
  GET (world (Rejects (ErrorInstance (lit "fetch failed"))))
      (relay [(lit "url", lit "http://x/wm.mp4")]) =
    ([ConsoleLog
        [AText (lit "Downloading TikTok video from: " ++ lit "http://x/wm.mp4")];
      Fetch (lit "http://x/wm.mp4") [userAgent];
      ConsoleError
        [AText (lit "Erro ao baixar vídeo do TikTok:");
         AThrown (ErrorInstance (lit "fetch failed"))]],
     inr (NextResponse_json
            (obj [(lit "error", str (lit "Erro ao baixar o vídeo"));
                  (lit "details",
                   details_of (ErrorInstance (lit "fetch failed")))])
            500)).
Proof.
  apply (X11_GET_media_unreadable
           (world (Rejects (ErrorInstance (lit "fetch failed"))))
           (relay [(lit "url", lit "http://x/wm.mp4")])
           (lit "http://x/wm.mp4") (ErrorInstance (lit "fetch failed")));
    [reflexivity|discriminate|left; reflexivity].
Defined.

(** ** [Content-Length] *)

Lemma parse_digits_acc d : forall acc,
  fold_left (fun acc c => (acc * 10 + (c - 48))%N)
            (lit (NilEmpty.string_of_uint d)) (Npos acc)
  = Npos (Pos.of_uint_acc d acc).
Proof.
  induction d; intros acc; cbn [NilEmpty.string_of_uint Pos.of_uint_acc];
    [reflexivity|..];
    rewrite lit_ascii_head by reflexivity; cbn [fold_left];
    rewrite <- IHd; f_equal;
    match goal with
    | |- context [N_of_ascii ?a] =>
        let v := eval vm_compute in (N_of_ascii a) in
        change (N_of_ascii a) with v
    end; lia.
Qed.

Lemma parse_digits d :
  fold_left (fun acc c => (acc * 10 + (c - 48))%N)
            (lit (NilEmpty.string_of_uint d)) 0%N
  = Pos.of_uint d.
Proof.
  induction d; cbn [NilEmpty.string_of_uint Pos.of_uint];
    [reflexivity|..];
    rewrite lit_ascii_head by reflexivity; cbn [fold_left];
    [exact IHd|..]; rewrite <- parse_digits_acc; reflexivity.
Qed.

Lemma parse_decimal_N_toString n : parse_decimal (N_toString n) = n.
Proof.
  unfold parse_decimal, N_toString.
  rewrite <- (Stdlib.Numbers.DecimalN.Unsigned.of_to n) at 2.
  unfold N.of_uint. rewrite <- parse_digits.
  destruct (N.to_uint n); reflexivity.
Qed.

(** X12 (the length the relay announces). On a successful relay, one
    whose file name can stand in a header, the [Content-Length] header,
    read as a decimal numeral, is the number of bytes of the body [GET]
    returns. *)
Theorem X12_GET_content_length env request videoUrl response videoBuffer :
  searchParams_get (searchParams request) (lit "url") = str videoUrl ->
  videoUrl <> [] ->
  network env videoUrl [userAgent] = Resolves response ->
  ok response = true ->
  arrayBuffer response = inr videoBuffer ->
  header_safe (relay_filename (searchParams request)) = true ->
  exists r len,
    outcome (GET env request) = inr r /\
    res_body r = BodyBytes videoBuffer /\
    header_value (res_headers r) (lit "Content-Length") = Some len /\
    parse_decimal len = N.of_nat (length videoBuffer).
Proof.
  intros Hurl Hne Hnet Hok Hbuf Hsafe.
  rewrite (GET_run env request videoUrl Hurl Hne), Hnet, Hok, Hbuf, Hsafe.
  eexists. eexists. split; [reflexivity|]. split; [reflexivity|].
  split; [reflexivity|]. apply parse_decimal_N_toString.
Qed.

Lemma X12_witness :
  exists r len,
    outcome (GET (world (Resolves (media_response 200 three_bytes)))
                 (relay [(lit "url", lit "http://x/wm.mp4")])) = inr r /\
    res_body r = BodyBytes three_bytes /\
    header_value (res_headers r) (lit "Content-Length") = Some len /\
    parse_decimal len = N.of_nat (length three_bytes).
Proof.
  apply (X12_GET_content_length
           (world (Resolves (media_response 200 three_bytes)))
           (relay [(lit "url", lit "http://x/wm.mp4")])
           (lit "http://x/wm.mp4") (media_response 200 three_bytes)
           three_bytes);
    try reflexivity. discriminate.
Defined.

(** ** [encodeURIComponent] *)

Lemma hex_digit_alnum n : (n < 16)%N -> is_alnum (hex_digit n) = true.
Proof.
  intros H. unfold hex_digit, is_alnum.
  destruct (n <? 10)%N eqn:E.
  - apply N.ltb_lt in E. apply orb_true_iff. left. apply orb_true_iff. left.
    apply andb_true_iff. split; apply N.leb_le; lia.
  - apply N.ltb_ge in E. apply orb_true_iff. left. apply orb_true_iff. right.
    apply andb_true_iff. split; apply N.leb_le; lia.
Qed.

Lemma percent_safe octet : (octet < 256)%N -> url_safe (percent octet) = true.
Proof.
  intros H. unfold url_safe, percent, uriUnescaped. cbn [forallb].
  rewrite !hex_digit_alnum.
  - reflexivity.
  - apply N.mod_lt. discriminate.
  - apply N.Div0.div_lt_upper_bound. exact H.
Qed.

Lemma utf8_octets_bytes v :
  (v < 1114112)%N -> Forall (fun o => (o < 256)%N) (utf8_octets v).
Proof.
  intros H. unfold utf8_octets.
  pose proof (N.mod_lt v 64). pose proof (N.mod_lt (v / 64) 64).
  pose proof (N.mod_lt (v / 4096) 64).
  destruct (v <? 128)%N eqn:E1; [apply N.ltb_lt in E1|].
  { repeat constructor. lia. }
  destruct (v <? 2048)%N eqn:E2; [apply N.ltb_lt in E2|].
  { assert (v / 64 < 32)%N by (apply N.Div0.div_lt_upper_bound; lia).
    repeat constructor; lia. }
  destruct (v <? 65536)%N eqn:E3; [apply N.ltb_lt in E3|].
  { assert (v / 4096 < 16)%N by (apply N.Div0.div_lt_upper_bound; lia).
    repeat constructor; lia. }
  assert (v / 262144 < 5)%N by (apply N.Div0.div_lt_upper_bound; lia).
  repeat constructor; lia.
Qed.

Lemma url_safe_app a b : url_safe (a ++ b) = url_safe a && url_safe b.
Proof. apply forallb_app. Qed.

Lemma escapes_safe v :
  (v < 1114112)%N -> url_safe (flat_map percent (utf8_octets v)) = true.
Proof.
  intros H. apply utf8_octets_bytes in H.
  induction H as [|o os Ho _ IH]; [reflexivity|].
  cbn [flat_map]. rewrite url_safe_app, percent_safe, IH by assumption.
  reflexivity.
Qed.

Lemma Encode_safe_bounded n : forall s e,
  length s <= n -> code_units s -> Encode s = Some e -> url_safe e = true.
Proof.
  induction n as [|n IH]; intros s e Hlen Hs He.
  - destruct s; [|simpl in Hlen; lia]. now injection He as <-.
  - destruct s as [|c rest]; [now injection He as <-|].
    inversion Hs as [|? ? Hc Hrest]; subst. cbn [Encode] in He.
    simpl in Hlen.
    destruct (uriUnescaped c) eqn:Eu.
    { destruct (Encode rest) as [e'|] eqn:Er; [|discriminate].
      injection He as <-. cbn [url_safe forallb]. rewrite Eu.
      apply (IH rest e'); [lia|assumption|assumption]. }
    destruct (is_low_surrogate c); [discriminate|].
    destruct (is_high_surrogate c) eqn:Eh; cbn [negb] in He.
    + destruct rest as [|k rest']; [discriminate|].
      destruct (is_low_surrogate k) eqn:Ek; [|discriminate].
      destruct (Encode rest') as [e'|] eqn:Er; [|discriminate].
      injection He as <-. rewrite url_safe_app. apply andb_true_iff. split.
      * apply escapes_safe. unfold is_high_surrogate in Eh.
        unfold is_low_surrogate in Ek.
        apply andb_true_iff in Eh, Ek. destruct Eh as [_ Eh], Ek as [_ Ek].
        apply N.leb_le in Eh, Ek. lia.
      * inversion Hrest; subst. simpl in Hlen.
        apply (IH rest' e'); [lia|assumption|assumption].
    + destruct (Encode rest) as [e'|] eqn:Er; [|discriminate].
      injection He as <-. rewrite url_safe_app. apply andb_true_iff. split.
      * apply escapes_safe. lia.
      * apply (IH rest e'); [lia|assumption|assumption].
Qed.

Lemma code_units_check s :
  forallb (fun c => (c <? 65536)%N) s = true -> code_units s.
Proof.
  intros H. apply Forall_forall. intros c Hc.
  rewrite forallb_forall in H. apply N.ltb_lt. now apply H.
Qed.

Lemma no_surrogates_check s :
  forallb (fun c => negb (is_high_surrogate c || is_low_surrogate c)) s = true ->
  Forall (fun c => is_high_surrogate c = false /\
                   is_low_surrogate c = false) s.
Proof.
  intros H. apply Forall_forall. intros c Hc.
  rewrite forallb_forall in H. specialize (H c Hc).
  apply negb_true_iff, orb_false_iff in H. exact H.
Qed.

(** X13 (what an encoded link is made of). Whenever [encodeURIComponent]
    returns, on a string of 16-bit code units, the result holds only
    letters, digits, the marks [-_.!~*'()] and percent signs: no [&],
    [=], [#], [?], [/] or space, so it stands as one query parameter. *)
Theorem X13_Encode_url_safe s e :
  code_units s -> Encode s = Some e -> url_safe e = true.
Proof. apply (Encode_safe_bounded (length s)). apply Nat.le_refl. Qed.

Lemma X13_witness :
  url_safe (lit "https%3A%2F%2Fwww.tiktok.com%2F%40demo%2Fvideo%2F123%3Fa%3D1%26b%3D%20")
  = true.
Proof.
  apply (X13_Encode_url_safe
           (lit "https://www.tiktok.com/@demo/video/123?a=1&b= ")).
  - apply code_units_check. reflexivity.
  - reflexivity.
Defined.

(** X14 (when encoding succeeds). On a string without surrogate code
    units [encodeURIComponent] always returns; and it returns a string of
    unreserved characters unchanged. *)
Theorem X14_Encode_total_without_surrogates s :
  (Forall (fun c => is_high_surrogate c = false /\
                    is_low_surrogate c = false) s ->
   exists e, Encode s = Some e) /\
  (forallb uriUnescaped s = true -> Encode s = Some s).
Proof.
  split.
  - induction 1 as [|c rest [Hh Hl] _ (e & IH)]; [now exists []|].
    cbn [Encode]. rewrite Hh, Hl, IH. cbn [negb option_map].
    destruct (uriUnescaped c); eauto.
  - induction s as [|c rest IH]; [reflexivity|].
    cbn [forallb Encode]. intros H. apply andb_true_iff in H.
    destruct H as [-> H]. now rewrite IH.
Qed.

Lemma X14_witness :
  (exists e, Encode (lit "vídeo do @demo") = Some e) /\
  Encode (lit "tiktok_video.mp4") = Some (lit "tiktok_video.mp4").
Proof.
  split.
  - apply (proj1 (X14_Encode_total_without_surrogates (lit "vídeo do @demo"))).
    apply no_surrogates_check. reflexivity.
  - apply (proj2 (X14_Encode_total_without_surrogates
                    (lit "tiktok_video.mp4"))).
    reflexivity.
Defined.

(** ** The validator and the file name *)

(** X15 (nothing after the first path character is checked). The
    pattern has no end anchor: once a link is accepted, it stays accepted
    whatever is appended to it. *)
Theorem X15_validator_ignores_what_follows s t :
  test tiktokRegex s = true -> test tiktokRegex (s ++ t) = true.
Proof.
  rewrite !tiktokRegex_matches.
  intros (scheme & www & host & c & rest & -> & H).
  exists scheme, www, host, c, (rest ++ t). split; [|exact H].
  now rewrite <- !app_assoc.
Qed.

Lemma X15_witness :
  test tiktokRegex (lit "tiktok.com/x" ++ lit " <script>alert(1)</script>")
  = true.
Proof.
  apply (X15_validator_ignores_what_follows (lit "tiktok.com/x")).
  reflexivity.
Defined.

(** X16 (the file name clean-up). [sanitize] keeps the length of the
    name, leaves letters and digits where they are, turns every other
    code unit into an underscore (so the result holds letters, digits and
    underscores only), and changes nothing when applied again. *)
Theorem X16_sanitize_shape s :
  length (sanitize s) = length s /\
  forallb (fun c => is_alnum c || N.eqb c 95) (sanitize s) = true /\
  (forall i c, nth_error s i = Some c ->
               nth_error (sanitize s) i
               = Some (if is_alnum c then c else 95%N)) /\
  sanitize (sanitize s) = sanitize s.
Proof.
  unfold sanitize. split; [apply length_map|]. split; [|split].
  - induction s as [|c s IH]; [reflexivity|]. cbn [map forallb].
    rewrite IH, andb_true_r. destruct (is_alnum c) eqn:E; [now rewrite E|].
    reflexivity.
  - intros i c H. rewrite nth_error_map, H. reflexivity.
  - rewrite map_map. apply map_ext. intros c.
    destruct (is_alnum c) eqn:E; [now rewrite E|reflexivity].
Qed.

Lemma X16_witness :
  nth_error (sanitize (lit "Funny Cat")) 5 = Some 95%N.
Proof.
  apply (proj1 (proj2 (proj2 (X16_sanitize_shape (lit "Funny Cat"))))
           5%nat 32%N).
  reflexivity.
Defined.

(** ** The page's download button *)

Import Page.

Lemma validateUrl_accepts url :
  test tiktokRegex url = true -> validateUrl url = (true, Some JNull).
Proof.
  intros H. pose proof (validateUrl_test url) as E. rewrite H in E.
  unfold validateUrl in *.
  destruct (negb (truthy (str (trim url)))); [discriminate|].
  now rewrite H.
Qed.

Lemma validateUrl_refuses url :
  test tiktokRegex url = false ->
  exists msg, validateUrl url = (false, str msg).
Proof.
  intros H. unfold validateUrl. rewrite H.
  destruct (negb (truthy (str (trim url)))); eexists; reflexivity.
Qed.

(** X17 (the simulated progress). Started at 0, as [handleDownload]
    starts it, the progress after [n] runs of the timer's callback is
    [10 n] capped at 90: it never passes 90 before the download ends; and
    the callback clears its timer from the run that finds 90 on. *)
Theorem X17_progress_capped n :
  progress_after n 0 = Z.min (10 * Z.of_nat n) 90 /\
  snd (progress_tick (progress_after n 0)) = (9 <=? n)%nat.
Proof.
  assert (H : progress_after n 0 = Z.min (10 * Z.of_nat n) 90).
  { induction n as [|n IH]; [reflexivity|].
    cbn [progress_after]. rewrite IH. unfold progress_tick.
    destruct (90 <=? Z.min (10 * Z.of_nat n) 90)%Z eqn:E;
      [apply Z.leb_le in E|apply Z.leb_gt in E]; cbn [fst]; lia. }
  split; [exact H|]. rewrite H. unfold progress_tick.
  destruct (90 <=? Z.min (10 * Z.of_nat n) 90)%Z eqn:E;
    [apply Z.leb_le in E|apply Z.leb_gt in E]; cbn [snd]; symmetry.
  - apply Nat.leb_le. lia.
  - apply Nat.leb_gt. lia.
Qed.

(** X18 (a link the page refuses). For a link that fails the pattern,
    [handleDownload] sets the error message and does nothing else: no
    request is sent and the download state is not touched. *)
Theorem X18_handleDownload_refuses b url :
  test tiktokRegex url = false ->
  exists msg, handleDownload b url = ([SetError (str msg)], inr tt).
Proof.
  intros H. destruct (validateUrl_refuses url H) as (msg & E).
  exists msg. unfold handleDownload. rewrite E. reflexivity.
Qed.

Lemma X18_witness :
  exists msg,
    handleDownload (browser (PageRejects NotAnError) (PageRejects NotAnError))
                   (lit "not-a-url")
    = ([SetError (str msg)], inr tt).
Proof.
  apply (X18_handleDownload_refuses
           (browser (PageRejects NotAnError) (PageRejects NotAnError))
           (lit "not-a-url")).
  reflexivity.
Defined.

Lemma ptry_catch_result (c : P unit) handler :
  (forall e, result (handler e) = inr tt) ->
  result (ptry_catch c handler) = inr tt.
Proof.
  intros H. unfold result, ptry_catch. destruct (snd c) as [e|[]] eqn:E.
  - apply H.
  - exact E.
Qed.

Lemma trace_ptry_catch {A} (c : P A) handler :
  exists more, fst (ptry_catch c handler) = fst c ++ more.
Proof.
  unfold ptry_catch. destruct (snd c) as [e|a].
  - now exists (fst (handler e)).
  - exists []. now rewrite app_nil_r.
Qed.

Lemma trace_pbind {A B} (c : P A) (f : A -> P B) :
  exists more, fst (pbind c f) = fst c ++ more.
Proof.
  unfold pbind. destruct (snd c) as [e|a].
  - exists []. cbn [fst]. now rewrite app_nil_r.
  - now exists (fst (f a)).
Qed.

Lemma trace_page_fetch b url init :
  fst (page_fetch b url init) = [PageFetch url init].
Proof.
  unfold page_fetch, pbind, call. cbn [fst snd].
  now destruct (server b url init).
Qed.

(** X19 (the button is always released). For a link the pattern accepts,
    whatever the server does, [handleDownload] never rejects; it starts
    by clearing the error, locking the button, resetting the progress,
    starting the timer and sending the link to [/api/download/tiktok] in
    a POST, and it ends by releasing the button and clearing the
    timer. *)
Theorem X19_handleDownload_brackets b url :
  test tiktokRegex url = true ->
  result (handleDownload b url) = inr tt /\
  exists middle,
    trace (handleDownload b url) = opening url ++ middle ++ closing.
Proof.
  intros H. unfold handleDownload. rewrite (validateUrl_accepts url H).
  cbn [fst snd negb]. unfold result, trace.
  cbn [call pbind ptry_finally fst snd app]. split.
  - apply ptry_catch_result. intros e. reflexivity.
  - match goal with
    | |- context [ptry_catch (pbind (page_fetch ?b' ?u ?i) ?f) ?h] =>
        destruct (trace_ptry_catch (pbind (page_fetch b' u i) f) h)
          as (more1 & E1);
        destruct (trace_pbind (page_fetch b' u i) f) as (more2 & E2);
        rewrite E1, E2, trace_page_fetch
    end.
    exists (more2 ++ more1). unfold opening, closing.
    cbn [app]. now rewrite <- !app_assoc.
Qed.

Lemma X19_witness :
  result (handleDownload
            (browser (PageRejects NotAnError) (PageRejects NotAnError))
            Scenario.demo_url) = inr tt /\
  exists middle,
    trace (handleDownload
             (browser (PageRejects NotAnError) (PageRejects NotAnError))
             Scenario.demo_url)
    = opening Scenario.demo_url ++ middle ++ closing.
Proof.
  apply (X19_handleDownload_brackets
           (browser (PageRejects NotAnError) (PageRejects NotAnError))
           Scenario.demo_url).
  reflexivity.
Defined.

Lemma read_own b j k : j <> JNull -> read b (Some j) k = pret (own j k).
Proof. destruct j; try reflexivity. congruence. Qed.

(** The run of [handleDownload] once the resolver has answered with
    [response], whose body is [data]. *)
Ltac answered H Hserver Hjson Hnull :=
  unfold handleDownload; rewrite (validateUrl_accepts _ H);
  cbn [fst snd negb]; unfold page_fetch; rewrite Hserver;
  cbn [call pret pbind fst snd app]; rewrite Hjson;
  cbn [pawait pbind fst snd app];
  rewrite !(read_own _ _ _ Hnull).

Ltac page_steps :=
  cbn [call pret pthrow pbind pawait ptry_catch ptry_finally
       fst snd app negb message_of].

(** X20 (the resolver refuses). When the resolver's answer is not ok,
    [handleDownload] shows the [error] of its JSON body (or the fixed
    message when there is none; or the engine's TypeError message when
    that [error] has no string form) as the error and in a destructive
    toast; it sends no second request, announces no success, and releases
    the button. *)
Theorem X20_handleDownload_shows_server_error b url response data :
  test tiktokRegex url = true ->
  server b (lit "/api/download/tiktok") (Some (post_init url))
  = PageResolves response ->
  page_json response = inr data ->
  data <> JNull ->
  page_ok response = false ->
  handleDownload b url =
    (opening url
     ++ failure
          (str (match ToString
                         (js_or (own data (lit "error"))
                                (str (lit "Erro ao processar o vídeo")))
                with
                | Some message => message
                | None => primitive_message b
                end))
     ++ closing,
     inr tt).
Proof.
  intros H Hserver Hjson Hnull Hok. answered H Hserver Hjson Hnull.
  rewrite Hok. page_steps. unfold new_Error, page_ToString.
  destruct (ToString _); page_steps; reflexivity.
Qed.

(** The resolver's answer to a link whose video cannot be found. *)
Lemma X20_witness :
  handleDownload
    (browser
       (json_answer false
          (obj [(lit "error",
                 str (lit "Erro ao obter informações do vídeo do TikTok. Verifique se o link está correto."))]))
       (PageRejects NotAnError))
    Scenario.demo_url =
    (opening Scenario.demo_url
     ++ failure (str (lit "Erro ao obter informações do vídeo do TikTok. Verifique se o link está correto."))
     ++ closing,
     inr tt).
Proof.
  rewrite (X20_handleDownload_shows_server_error
             (browser
                (json_answer false
                   (obj [(lit "error",
                          str (lit "Erro ao obter informações do vídeo do TikTok. Verifique se o link está correto."))]))
                (PageRejects NotAnError))
             Scenario.demo_url
             {| page_ok := false;
                page_json :=
                  inr (obj [(lit "error",
                             str (lit "Erro ao obter informações do vídeo do TikTok. Verifique se o link está correto."))]);
                page_blob := inr [] |}
             (obj [(lit "error",
                    str (lit "Erro ao obter informações do vídeo do TikTok. Verifique se o link está correto."))]));
    try (vm_compute; reflexivity). discriminate.
Defined.

(** X21 (success with nothing to download). When the resolver's answer
    is ok and its JSON holds no truthy [data.downloadUrl],
    [handleDownload] sends no second request and saves nothing, and
    still sets the progress to 100, marks the download complete and
    shows the success toast. *)
Theorem X21_handleDownload_success_without_file b url response data :
  test tiktokRegex url = true ->
  server b (lit "/api/download/tiktok") (Some (post_init url))
  = PageResolves response ->
  page_json response = inr data ->
  data <> JNull ->
  page_ok response = true ->
  truthy (read_optional (own data (lit "data")) (lit "downloadUrl")) = false ->
  handleDownload b url = (opening url ++ celebration ++ closing, inr tt).
Proof.
  intros H Hserver Hjson Hnull Hok Hurl. answered H Hserver Hjson Hnull.
  rewrite Hok. page_steps. rewrite Hurl. page_steps. reflexivity.
Qed.

(** An ok answer whose [data] has a title and no URL. *)
Lemma X21_witness :
  handleDownload
    (browser
       (json_answer true
          (obj [(lit "success", Some (JBool true));
                (lit "data", Some (obj [(lit "title", str (lit "Funny Cat"))]))]))
       (PageRejects NotAnError))
    Scenario.demo_url
  = (opening Scenario.demo_url ++ celebration ++ closing, inr tt).
Proof.
  apply (X21_handleDownload_success_without_file
           (browser
              (json_answer true
                 (obj [(lit "success", Some (JBool true));
                       (lit "data",
                        Some (obj [(lit "title", str (lit "Funny Cat"))]))]))
              (PageRejects NotAnError))
           Scenario.demo_url
           {| page_ok := true;
              page_json :=
                inr (obj [(lit "success", Some (JBool true));
                          (lit "data",
                           Some (obj [(lit "title", str (lit "Funny Cat"))]))]);
              page_blob := inr [] |}
           (obj [(lit "success", Some (JBool true));
                 (lit "data",
                  Some (obj [(lit "title", str (lit "Funny Cat"))]))]));
    try (vm_compute; reflexivity). discriminate.
Defined.

(** X22 (a download). When the resolver's answer is ok and holds a
    truthy [data.downloadUrl] and a string for a title, [handleDownload]
    asks the relay for [url=] the encoded URL and [filename=] the
    sanitized title with [.mp4]; when the relay's answer is ok, it saves
    the blob through a link whose [download] name is that same file
    name, then announces the success and releases the button. *)
Theorem X22_handleDownload_saves_file b url response data inner name
    text encoded video blob :
  test tiktokRegex url = true ->
  server b (lit "/api/download/tiktok") (Some (post_init url))
  = PageResolves response ->
  page_json response = inr data ->
  page_ok response = true ->
  own data (lit "data") = Some inner ->
  truthy (own inner (lit "downloadUrl")) = true ->
  js_or (own inner (lit "title")) (str (lit "TikTok_Video")) = str name ->
  ToString (own inner (lit "downloadUrl")) = Some text ->
  Encode text = Some encoded ->
  server b (lit "/api/download/tiktok?url=" ++ encoded
            ++ lit "&filename=" ++ sanitize name ++ lit ".mp4") None
  = PageResolves video ->
  page_ok video = true ->
  page_blob video = inr blob ->
  handleDownload b url =
    (opening url
     ++ [PageFetch (lit "/api/download/tiktok?url=" ++ encoded
                    ++ lit "&filename=" ++ sanitize name ++ lit ".mp4") None;
         CreateObjectURL blob;
         CreateElement (lit "a");
         SetHref (objectURL b blob);
         SetDownload (sanitize name ++ lit ".mp4");
         AppendChild; Click; RemoveChild;
         RevokeObjectURL (objectURL b blob)]
     ++ celebration ++ closing,
     inr tt).
Proof.
  intros H Hserver Hjson Hok Hinner Hurl Hname Htext Henc Hrelay Hvok Hblob.
  assert (Hnull : data <> JNull) by (intros ->; discriminate).
  answered H Hserver Hjson Hnull. rewrite Hok. page_steps.
  rewrite Hinner. page_steps.
  destruct inner; try discriminate Hurl.
  cbn [read_optional]. rewrite Hurl. page_steps.
  rewrite !read_own by discriminate. page_steps. cbv zeta.
  rewrite Hname.
  unfold replace_unsafe, page_encodeURIComponent, page_ToString.
  change (str name) with (Some (JStr name)).
  rewrite Htext. page_steps. rewrite Henc. page_steps. rewrite Hrelay.
  page_steps. rewrite Hvok. page_steps. rewrite Hblob. page_steps.
  reflexivity.
Qed.

(** The resolver's answer to the specification's example, and three
    bytes from the relay. *)
Lemma X22_witness :
  handleDownload
    (browser
       (json_answer true
          (obj [(lit "success", Some (JBool true));
                (lit "data",
                 Some (obj [(lit "title", str (lit "Funny Cat"));
                            (lit "downloadUrl", str (lit "http://x/wm.mp4"))]))]))
       (blob_answer Scenario.three_bytes))
    Scenario.demo_url =
    (opening Scenario.demo_url
     ++ [PageFetch (lit "/api/download/tiktok?url=" ++ lit "http%3A%2F%2Fx%2Fwm.mp4"
                    ++ lit "&filename=" ++ sanitize (lit "Funny Cat") ++ lit ".mp4")
           None;
         CreateObjectURL Scenario.three_bytes;
         CreateElement (lit "a");
         SetHref (lit "blob:1");
         SetDownload (sanitize (lit "Funny Cat") ++ lit ".mp4");
         AppendChild; Click; RemoveChild;
         RevokeObjectURL (lit "blob:1")]
     ++ celebration ++ closing,
     inr tt).
Proof.
  apply (X22_handleDownload_saves_file
           (browser
              (json_answer true
                 (obj [(lit "success", Some (JBool true));
                       (lit "data",
                        Some (obj [(lit "title", str (lit "Funny Cat"));
                                   (lit "downloadUrl",
                                    str (lit "http://x/wm.mp4"))]))]))
              (blob_answer Scenario.three_bytes))
           Scenario.demo_url
           {| page_ok := true;
              page_json :=
                inr (obj [(lit "success", Some (JBool true));
                          (lit "data",
                           Some (obj [(lit "title", str (lit "Funny Cat"));
                                      (lit "downloadUrl",
                                       str (lit "http://x/wm.mp4"))]))]);
              page_blob := inr [] |}
           (obj [(lit "success", Some (JBool true));
                 (lit "data",
                  Some (obj [(lit "title", str (lit "Funny Cat"));
                             (lit "downloadUrl",
                              str (lit "http://x/wm.mp4"))]))])
           (obj [(lit "title", str (lit "Funny Cat"));
                 (lit "downloadUrl", str (lit "http://x/wm.mp4"))])
           (lit "Funny Cat")
           (lit "http://x/wm.mp4")
           (lit "http%3A%2F%2Fx%2Fwm.mp4")
           {| page_ok := true;
              page_json := inl (ErrorInstance (lit "Unexpected token"));
              page_blob := inr Scenario.three_bytes |}
           Scenario.three_bytes);
    try (vm_compute; reflexivity).
Defined.

(** X23 (the download fails after the resolver succeeded). When the
    relay's answer is not ok, or the title the resolver gave is truthy
    and not a string, [handleDownload] creates no link and announces no
    success: it shows the error and releases the button.  In the second
    case the relay is not even asked. *)
Theorem X23_handleDownload_download_fails b url response data inner :
  test tiktokRegex url = true ->
  server b (lit "/api/download/tiktok") (Some (post_init url))
  = PageResolves response ->
  page_json response = inr data ->
  page_ok response = true ->
  own data (lit "data") = Some inner ->
  truthy (own inner (lit "downloadUrl")) = true ->
  (forall name text encoded video,
      js_or (own inner (lit "title")) (str (lit "TikTok_Video")) = str name ->
      ToString (own inner (lit "downloadUrl")) = Some text ->
      Encode text = Some encoded ->
      server b (lit "/api/download/tiktok?url=" ++ encoded
                ++ lit "&filename=" ++ sanitize name ++ lit ".mp4") None
      = PageResolves video ->
      page_ok video = false ->
      handleDownload b url =
        (opening url
         ++ [PageFetch (lit "/api/download/tiktok?url=" ++ encoded
                        ++ lit "&filename=" ++ sanitize name ++ lit ".mp4")
               None]
         ++ failure (str (lit "Erro ao baixar o vídeo do servidor"))
         ++ closing,
         inr tt)) /\
  (match own inner (lit "title") with
   | Some (JStr _) => False
   | v => truthy v = true
   end ->
   handleDownload b url =
     (opening url
      ++ failure (str (not_a_function_message b (lit "filename.replace")))
      ++ closing,
      inr tt)).
Proof.
  intros H Hserver Hjson Hok Hinner Hurl.
  assert (Hnull : data <> JNull) by (intros ->; discriminate).
  split.
  - intros name text encoded video Hname Htext Henc Hrelay Hvok.
    answered H Hserver Hjson Hnull. rewrite Hok. page_steps.
    rewrite Hinner. page_steps.
    destruct inner; try discriminate Hurl.
    cbn [read_optional]. rewrite Hurl. page_steps.
    rewrite !read_own by discriminate. page_steps. cbv zeta.
    rewrite Hname.
    unfold replace_unsafe, page_encodeURIComponent, page_ToString.
    change (str name) with (Some (JStr name)).
    rewrite Htext. page_steps. rewrite Henc. page_steps. rewrite Hrelay.
    page_steps. rewrite Hvok. page_steps. reflexivity.
  - intros Htitle.
    answered H Hserver Hjson Hnull. rewrite Hok. page_steps.
    rewrite Hinner. page_steps.
    destruct inner; try discriminate Hurl.
    cbn [read_optional]. rewrite Hurl. page_steps.
    rewrite !read_own by discriminate. page_steps. cbv zeta.
    unfold replace_unsafe, js_or.
    destruct (own (JObj fields) (lit "title")) as [[]|];
      try contradiction; rewrite ?Htitle; try discriminate Htitle;
      page_steps; reflexivity.
Qed.

(** A title that is a number. *)
Lemma X23_witness :
  handleDownload
    (browser
       (json_answer true
          (obj [(lit "data",
                 Some (obj [(lit "title", Some (JNum 7));
                            (lit "downloadUrl", str (lit "http://x/wm.mp4"))]))]))
       (blob_answer Scenario.three_bytes))
    Scenario.demo_url =
    (opening Scenario.demo_url
     ++ failure (str (lit "filename.replace" ++ lit " is not a function"))
     ++ closing,
     inr tt).
Proof.
  refine (proj2 (X23_handleDownload_download_fails
           (browser
              (json_answer true
                 (obj [(lit "data",
                        Some (obj [(lit "title", Some (JNum 7));
                                   (lit "downloadUrl",
                                    str (lit "http://x/wm.mp4"))]))]))
              (blob_answer Scenario.three_bytes))
           Scenario.demo_url
           {| page_ok := true;
              page_json :=
                inr (obj [(lit "data",
                           Some (obj [(lit "title", Some (JNum 7));
                                      (lit "downloadUrl",
                                       str (lit "http://x/wm.mp4"))]))]);
              page_blob := inr [] |}
           (obj [(lit "data",
                  Some (obj [(lit "title", Some (JNum 7));
                             (lit "downloadUrl",
                              str (lit "http://x/wm.mp4"))]))])
           (obj [(lit "title", Some (JNum 7));
                 (lit "downloadUrl", str (lit "http://x/wm.mp4"))])
           _ _ _ _ _ _) _);
    try (vm_compute; reflexivity).
Defined.
